(** * Self-hosted Supabase MCP server: dispatch, access control, SQL fallback
      chain and HTTP front-end

    A shallow embedding of the TypeScript sources
      - [src/tools/types.ts]            (role / privilege policy),
      - [src/tools/utils.ts]            (SQL execution fallback chain),
      - [src/server/auth-middleware.ts] (bearer-token middleware),
      - [src/server/http-server.ts]     (rate limiter, origin check, routes),
      - [src/index.ts]                  (tool catalog and call dispatcher),
    followed by the properties proved about them.

    Conventions.  JavaScript numbers that hold millisecond timestamps, counters
    and durations are integers well inside the exactly representable range of a
    double; they are modelled as [Z].  Console output and calls to collaborators
    (backend primitives, schema parsing, tool bodies) are recorded in an explicit
    trace, so that "was never called" is a statement about that trace. *)

From Stdlib Require Import ZArith Lia Ascii.
From stdpp Require Import base strings list gmap pretty.

Open Scope string_scope.
Open Scope list_scope.
Open Scope Z_scope.
Open Scope stdpp_scope.

(** ** Traced computations

    [Traced E A] is a computation that emits events of type [E] in order and
    returns an [A]. *)

Definition Traced (E A : Type) : Type := (list E * A)%type.

Definition tret {E A} (a : A) : Traced E A := ([], a).

Definition temit {E} (e : E) : Traced E unit := ([e], tt).

Definition tbind {E A B} (m : Traced E A) (k : A -> Traced E B) : Traced E B :=
  let '(t1, a) := m in
  let '(t2, b) := k a in
  (t1 ++ t2, b).

Notation "e1 ;;; e2" := (tbind e1 (fun _ => e2))
  (at level 90, right associativity).

Definition trace_of {E A} (m : Traced E A) : list E := fst m.
Definition value_of {E A} (m : Traced E A) : A := snd m.

(** ** JSON values (tool arguments, tool results, result rows) *)

#[local] Unset Elimination Schemes.
Inductive JsonValue : Type :=
| JNull
| JBool (b : bool)
| JNum (n : Z)
| JStr (s : string)
| JArr (items : list JsonValue)
| JObj (fields : list (string * JsonValue)).
#[local] Set Elimination Schemes.

(** ** JavaScript string helpers *)

(** The one-character string holding a double quote. *)
Definition dquote : string := String (ascii_of_nat 34) EmptyString.

(** [s.startsWith(p)] *)
Definition startsWith (s p : string) : bool := String.prefix p s.

(** [s.slice(n)] for [0 <= n] *)
Fixpoint slice_from (n : nat) (s : string) : string :=
  match n, s with
  | O, _ => s
  | S n', String _ rest => slice_from n' rest
  | S _, EmptyString => EmptyString
  end.

(** [s.endsWith(p)] *)
Definition endsWith (s p : string) : bool :=
  bool_decide (slice_from (String.length s - String.length p) s = p).

(** [s.slice(0, -n)] *)
Definition slice_drop_end (n : nat) (s : string) : string :=
  String.substring 0 (String.length s - n) s.

(** Truthiness of a string-valued expression that may be [undefined] or
    [null]: absent and empty strings are falsy. *)
Definition truthy (o : option string) : option string :=
  match o with
  | Some s => if decide (s = EmptyString) then None else Some s
  | None => None
  end.

(** [a || b] on such strings *)
Definition or_else (o : option string) (d : string) : string := default d (truthy o).

(** [parts.join(sep)] *)
Fixpoint join (sep : string) (parts : list string) : string :=
  match parts with
  | [] => EmptyString
  | [x] => x
  | x :: rest => x +:+ sep +:+ join sep rest
  end.

(** [t] occurs inside [s]. *)
Definition occurs_in (t s : string) : Prop :=
  exists before after, s = before +:+ t +:+ after.

(** The settled state of an awaited promise. *)
Inductive Awaited (A : Type) : Type :=
| Fulfilled (a : A)
| Rejected (reason : string).
Arguments Fulfilled {A} a.
Arguments Rejected {A} reason.

(** ** src/tools/types.ts *)
Module Types.

Inductive ToolPrivilegeLevel : Type := regular | privileged.

#[global] Instance ToolPrivilegeLevel_eq_dec : EqDecision ToolPrivilegeLevel.
Proof. solve_decision. Defined.

Definition show_level (p : ToolPrivilegeLevel) : string :=
  match p with regular => "regular" | privileged => "privileged" end.

Record UserContext : Type := {
  userId : string;
  email : option string;   (* string | null *)
  role : string
}.

(** [ROLE_PRIVILEGE_MAP]: an object used as a map from role to a [Set] of
    levels. *)
Definition ROLE_PRIVILEGE_MAP : gmap string (list ToolPrivilegeLevel) :=
  <["service_role" := [regular; privileged]]>
    (<["authenticated" := [regular]]>
       (<["anon" := []]> ∅)).

(** [Set.prototype.has] *)
Definition Set_has (s : list ToolPrivilegeLevel) (p : ToolPrivilegeLevel) : bool :=
  bool_decide (p ∈ s).

(** [Object.hasOwn(ROLE_PRIVILEGE_MAP, userRole) ? ROLE_PRIVILEGE_MAP[userRole]
     : ROLE_PRIVILEGE_MAP.authenticated], then [.has(toolPrivilegeLevel)]. *)
Definition canAccessTool (userRole : string) (toolPrivilegeLevel : ToolPrivilegeLevel) : bool :=
  let allowedLevels :=
    match ROLE_PRIVILEGE_MAP !! userRole with
    | Some levels => levels
    | None => default [] (ROLE_PRIVILEGE_MAP !! "authenticated")
    end in
  Set_has allowedLevels toolPrivilegeLevel.

(** The policy table in the words of the specification: the elevated-service
    role maps to both levels, the authenticated-user role to [regular] only,
    the anonymous role to nothing, and every other role string to the
    authenticated-user policy. *)
Definition allowedPrivileges_spec (r : string) : list ToolPrivilegeLevel :=
  if decide (r = "service_role") then [regular; privileged]
  else if decide (r = "anon") then []
  else [regular].

(** The role whose table entry decides a call made under role [r]. *)
Definition effective_role (r : string) : string :=
  if bool_decide (r ∈ ["service_role"; "authenticated"; "anon"]) then r else "authenticated".

End Types.

(** ** src/tools/utils.ts: the SQL execution fallback chain *)
Module Utils.

Record SqlError : Type := { message : string; code : string }.

Inductive SqlExecutionResult : Type :=
| SqlSuccessResponse (rows : list JsonValue)
| SqlErrorResponse (error : SqlError).

(** The two execution primitives of the client, as calls. *)
Inductive ClientCall : Type :=
| ExecuteSqlWithPg (sql : string)
| ExecuteSqlViaServiceRoleRpc (sql : string) (readOnly : bool).

Inductive Effect : Type :=
| ConsoleInfo (line : string)
| Backend (call : ClientCall).

(** [SelfhostedSupabaseClient], as far as the fallback chain uses it.  The
    class itself lives in [src/client/index.ts]; its two capability predicates
    and two primitives are taken as given. *)
Record SelfhostedSupabaseClient : Type := {
  isPgAvailable : bool;
  isServiceRoleAvailable : bool;
  executeSqlWithPg : string -> Awaited SqlExecutionResult;
  executeSqlViaServiceRoleRpc : string -> bool -> Awaited SqlExecutionResult
}.

Definition CONFIG_ERROR_MESSAGE : string :=
  "Neither direct database connection (DATABASE_URL) nor service role key (SUPABASE_SERVICE_ROLE_KEY) is configured. Cannot execute SQL.".

(** [executeSqlWithFallback(client, sql, readOnly = true)] *)
Definition executeSqlWithFallback (client : SelfhostedSupabaseClient)
    (sql : string) (readOnlyArg : option bool)
  : Traced Effect (Awaited SqlExecutionResult) :=
  let readOnly := default true readOnlyArg in
  if isPgAvailable client then
    temit (ConsoleInfo "Using direct database connection (bypassing JWT)...") ;;;
    temit (Backend (ExecuteSqlWithPg sql)) ;;;
    tret (executeSqlWithPg client sql)
  else if isServiceRoleAvailable client then
    temit (ConsoleInfo "Using service role RPC method...") ;;;
    temit (Backend (ExecuteSqlViaServiceRoleRpc sql readOnly)) ;;;
    tret (executeSqlViaServiceRoleRpc client sql readOnly)
  else
    tret (Fulfilled (SqlErrorResponse
            {| message := CONFIG_ERROR_MESSAGE; code := "MCP_CONFIG_ERROR" |})).

(** Observations on a trace of the chain. *)
Definition is_backend (e : Effect) : bool :=
  match e with Backend _ => true | ConsoleInfo _ => false end.

Definition is_rpc (e : Effect) : bool :=
  match e with Backend (ExecuteSqlViaServiceRoleRpc _ _) => true | _ => false end.

Definition is_pg (e : Effect) : bool :=
  match e with Backend (ExecuteSqlWithPg _) => true | _ => false end.

Definition backend_calls (t : list Effect) : list Effect := List.filter is_backend t.

(** The [error.code] of a settled result, when it is an error response. *)
Definition error_code (r : Awaited SqlExecutionResult) : option string :=
  match r with
  | Fulfilled (SqlErrorResponse e) => Some (code e)
  | _ => None
  end.

End Utils.

(** ** The jsonwebtoken library, as the middleware relies on it

    [jwt.verify(token, secret, { algorithms: ['HS256'] })] is library code.  The
    model keeps its documented order of checks (well-formedness, algorithm,
    signature, not-before, expiry), the error class and message thrown by each,
    and its class hierarchy: [TokenExpiredError] and [NotBeforeError] are
    subclasses of [JsonWebTokenError], which is a subclass of [Error]. *)
Module Jsonwebtoken.

Inductive ErrorClass : Type :=
| Error | JsonWebTokenError | NotBeforeError | TokenExpiredError.

#[global] Instance ErrorClass_eq_dec : EqDecision ErrorClass.
Proof. solve_decision. Defined.

(** The direct superclass. *)
Definition superclass (c : ErrorClass) : option ErrorClass :=
  match c with
  | Error => None
  | JsonWebTokenError => Some Error
  | NotBeforeError => Some JsonWebTokenError
  | TokenExpiredError => Some JsonWebTokenError
  end.

(** [new c(...) instanceof target]: walk the prototype chain. *)
Definition instanceof (c target : ErrorClass) : bool :=
  bool_decide (c = target)
  || match superclass c with
     | Some p => bool_decide (p = target)
                 || match superclass p with
                    | Some q => bool_decide (q = target)
                    | None => false
                    end
     | None => false
     end.

Record Thrown : Type := { cls : ErrorClass; message : string }.

(** [SupabaseJwtPayload] of the middleware, plus the registered [nbf] claim
    that the library inspects. *)
Record SupabaseJwtPayload : Type := {
  sub : option string;
  email : option string;
  role : option string;
  aud : option string;
  exp : option Z;
  iat : option Z;
  nbf : option Z
}.

(** A token after decoding of its compact serialization: the algorithm of
    its header, its claims, and under which secrets its HMAC signature
    verifies. *)
Record DecodedToken : Type := {
  alg : string;
  payload : SupabaseJwtPayload;
  signature_verifies : string -> bool
}.

Inductive VerifyOutcome : Type :=
| Decoded (p : SupabaseJwtPayload)
| Throws (e : Thrown).

Section Verify.
(** Decoding of the three dot-separated base64url segments; [None] for a
    malformed token. *)
Variable decode : string -> option DecodedToken.

(** [clockTimestamp] is the current time in seconds. *)
Definition verify (token secret : string) (clockTimestamp : Z) : VerifyOutcome :=
  match decode token with
  | None => Throws {| cls := JsonWebTokenError; message := "jwt malformed" |}
  | Some t =>
    if negb (bool_decide (alg t ∈ ["HS256"])) then
      Throws {| cls := JsonWebTokenError; message := "invalid algorithm" |}
    else if negb (signature_verifies t secret) then
      Throws {| cls := JsonWebTokenError; message := "invalid signature" |}
    else if match nbf (payload t) with
            | Some n => bool_decide (n > clockTimestamp)
            | None => false
            end then
      Throws {| cls := NotBeforeError; message := "jwt not active" |}
    else if match exp (payload t) with
            | Some e => bool_decide (clockTimestamp >= e)
            | None => false
            end then
      Throws {| cls := TokenExpiredError; message := "jwt expired" |}
    else Decoded (payload t)
  end.
End Verify.

End Jsonwebtoken.

(** ** src/server/auth-middleware.ts *)
Module AuthMiddleware.
Import Jsonwebtoken.

Record AuthenticatedUser : Type := {
  userId : string;
  email : option string;
  role : string;
  exp : Z
}.

(** What the middleware did with the request: answered it with
    [res.status(..).json({ error, message })], or attached [req.user] and
    called [next()]. *)
Inductive Outcome : Type :=
| Respond (status : Z) (error message : string)
| Next (user : AuthenticatedUser).

Definition unauthorized (message : string) : Outcome :=
  Respond 401 "Unauthorized" message.

Section Middleware.
Variable decode : string -> option DecodedToken.

(** The [catch] block. *)
Definition on_verify_error (e : Thrown) : Traced string Outcome :=
  if instanceof (cls e) JsonWebTokenError then
    tret (unauthorized ("Invalid token: " +:+ Jsonwebtoken.message e))
  else if instanceof (cls e) TokenExpiredError then
    tret (unauthorized "Token has expired")
  else
    temit "[AUTH] Unexpected error during token verification:" ;;;
    tret (Respond 500 "Internal Server Error" "Failed to verify authentication token").

(** The [try] block after a successful [jwt.verify]. *)
Definition on_decoded (decoded : SupabaseJwtPayload) : Traced string Outcome :=
  match truthy (sub decoded) with
  | None => tret (unauthorized "Invalid token: missing subject (sub) claim")
  | Some subject =>
    let user := {| userId := subject;
                   email := truthy (Jsonwebtoken.email decoded);
                   role := or_else (Jsonwebtoken.role decoded) "authenticated";
                   exp := match Jsonwebtoken.exp decoded with
                          | Some e => e   (* [e || 0]: 0 stays 0 *)
                          | None => 0
                          end |} in
    temit ("[AUTH] Authenticated request from user: "
           +:+ or_else (email user) (userId user)) ;;;
    tret (Next user)
  end.

(** [createAuthMiddleware(jwtSecret)(req, res, next)]; [authorization] is
    [req.headers.authorization] and [nowMs] the reading of the clock taken
    by [jwt.verify]. *)
Definition createAuthMiddleware (jwtSecret : string)
    (authorization : option string) (nowMs : Z) : Traced string Outcome :=
  match truthy authorization with
  | None => tret (unauthorized "Missing Authorization header")
  | Some authHeader =>
    if negb (startsWith authHeader "Bearer ") then
      tret (unauthorized "Invalid Authorization header format. Expected: Bearer <token>")
    else
      let token := slice_from 7 authHeader in
      if decide (token = EmptyString) then
        tret (unauthorized "Missing token in Authorization header")
      else
        match verify decode token jwtSecret (nowMs / 1000) with
        | Decoded decoded => on_decoded decoded
        | Throws e => on_verify_error e
        end
  end.
End Middleware.

End AuthMiddleware.

(** ** src/server/http-server.ts *)
Module HttpServer.

Record HttpMcpServerOptions : Type := {
  port : Z;
  host : string;
  jwtSecret : string;
  corsOrigins : option (list string);
  rateLimitWindowMs : option Z;
  rateLimitMaxRequests : option Z;
  requestTimeoutMs : option Z
}.

(** A value of [requestCounts]. *)
Record RateRecord : Type := { count : Z; resetTime : Z }.

(** A header of an incoming message: one string, or several. *)
Inductive HeaderValue : Type :=
| HString (s : string)
| HArray (ss : list string).

Record Request : Type := {
  method : string;
  path : string;                               (* [req.path] *)
  origin : option string;                      (* [req.headers.origin] *)
  authorization : option string;               (* [req.headers.authorization] *)
  x_forwarded_for : option HeaderValue;        (* [req.headers['x-forwarded-for']] *)
  ip : option string;                          (* [req.ip] *)
  remoteAddress : option string                (* [req.socket.remoteAddress] *)
}.

(** The readings of [Date.now()] taken while one request is served: by
    [checkRateLimit], by the computation of the retry hint, and by
    [jwt.verify]. *)
Record Clock : Type := { t_check : Z; t_retry : Z; t_verify : Z }.

(** [Math.ceil(a / b)] for integers [a] and [b > 0]. *)
Definition ceil_div (a b : Z) : Z := - ((- a) / b).

(** [cleanupExpiredRateLimitEntries()] at time [now]: the map without the
    expired entries, and the line logged when some were removed. *)
Definition cleanupExpiredRateLimitEntries (now : Z) (requestCounts : gmap string RateRecord)
  : Traced string (gmap string RateRecord) :=
  let kept := filter (λ kv : string * RateRecord, ¬ (now >= resetTime kv.2)) requestCounts in
  let cleanedCount := Z.of_nat (size requestCounts) - Z.of_nat (size kept) in
  (if bool_decide (cleanedCount > 0) then
     temit ("[HTTP] Rate limiter cleanup: removed " +:+ pretty cleanedCount +:+ " expired entries")
   else tret tt) ;;;
  tret kept.

Record RateLimitInfo : Type := {
  allowed : bool;
  remaining : Z;
  info_resetTime : Z;
  limit : Z
}.

(** [checkRateLimit(clientKey)] at time [now]: the updated map and the
    returned status. *)
Definition checkRateLimit (options : HttpMcpServerOptions) (clientKey : string) (now : Z)
    (requestCounts : gmap string RateRecord) : gmap string RateRecord * RateLimitInfo :=
  let windowMs := default 60000 (rateLimitWindowMs options) in
  let maxRequests := default 100 (rateLimitMaxRequests options) in
  let current :=
    match requestCounts !! clientKey with
    | Some record => if bool_decide (now >= resetTime record) then None else Some record
    | None => None
    end in
  match current with
  | None =>
    let record := {| count := 1; resetTime := now + windowMs |} in
    (<[clientKey := record]> requestCounts,
     {| allowed := true; remaining := maxRequests - 1;
        info_resetTime := resetTime record; limit := maxRequests |})
  | Some record =>
    if bool_decide (count record >= maxRequests) then
      (requestCounts,
       {| allowed := false; remaining := 0;
          info_resetTime := resetTime record; limit := maxRequests |})
    else
      let record' := {| count := count record + 1; resetTime := resetTime record |} in
      (<[clientKey := record']> requestCounts,
       {| allowed := true; remaining := maxRequests - count record';
          info_resetTime := resetTime record'; limit := maxRequests |})
  end.

(** [s.split(',')[0]] *)
Fixpoint before_comma (s : string) : string :=
  match s with
  | EmptyString => EmptyString
  | String c rest => if decide (c = ","%char) then EmptyString else String c (before_comma rest)
  end.

Fixpoint trim_start (s : string) : string :=
  match s with
  | String c rest => if Ascii.is_space c then trim_start rest else s
  | EmptyString => EmptyString
  end.

(** [s.trim()], on the ASCII white space characters. *)
Definition trim (s : string) : string :=
  String.rev (trim_start (String.rev (trim_start s))).

(** [getClientKey(req)] *)
Definition getClientKey (req : Request) : string :=
  match x_forwarded_for req with
  | Some (HString forwarded) => trim (before_comma forwarded)
  | _ =>
    match truthy (ip req) with
    | Some a => a
    | None => or_else (remoteAddress req) "unknown"
    end
  end.

(** The wildcard loop of [isOriginAllowed]. *)
Definition matches_wildcard (origin allowed : string) : bool :=
  endsWith allowed ":*" && startsWith origin (slice_drop_end 2 allowed +:+ ":").

(** [isOriginAllowed(origin)] *)
Definition isOriginAllowed (options : HttpMcpServerOptions) (origin : option string) : bool :=
  match truthy origin with
  | None => true
  | Some o =>
    let allowedOrigins :=
      default [ "http://localhost:" +:+ pretty (port options);
                "http://127.0.0.1:" +:+ pretty (port options);
                "http://" +:+ host options +:+ ":" +:+ pretty (port options) ]
              (corsOrigins options) in
    bool_decide ("*" ∈ allowedOrigins)
    || bool_decide (o ∈ allowedOrigins)
    || existsb (matches_wildcard o) allowedOrigins
  end.

Definition Headers : Type := list (string * string).

(** How a request ends: a response sent by the server itself, or the request
    handed to a fresh MCP session created by [mcpServerFactory(userContext)]. *)
Inductive Reply : Type :=
| Sent (status : Z) (body : option JsonValue)
| HandedToMcp (userContext : option Types.UserContext).

(** A middleware either ends the request or calls [next()]. *)
Inductive Stage (S : Type) : Type :=
| Done (headers : Headers) (reply : Reply)
| Continue (headers : Headers) (s : S).
Arguments Done {S} headers reply.
Arguments Continue {S} headers s.

Definition error_body (error message : string) : JsonValue :=
  JObj [("error", JStr error); ("message", JStr message)].

(** First middleware of [setupMiddleware]. *)
Definition securityHeaders : Headers :=
  [ ("X-Content-Type-Options", "nosniff");
    ("X-Frame-Options", "DENY");
    ("X-XSS-Protection", "1; mode=block");
    ("Strict-Transport-Security", "max-age=31536000; includeSubDomains");
    ("Content-Security-Policy", "default-src 'none'; frame-ancestors 'none'");
    ("Referrer-Policy", "no-referrer") ].

(** The body of the 429 response. *)
Definition too_many_requests_body (retryAfterSeconds : Z) : JsonValue :=
  JObj [ ("error", JStr "Too Many Requests");
         ("message", JStr "Rate limit exceeded. Please try again later.");
         ("retryAfter", JNum retryAfterSeconds) ].

(** The rate limiting middleware. *)
Definition rateLimitStage (options : HttpMcpServerOptions) (req : Request) (clk : Clock)
    (requestCounts : gmap string RateRecord) : Stage unit * gmap string RateRecord :=
  if decide (path req = "/health") then (Continue [] tt, requestCounts)
  else
    let clientKey := getClientKey req in
    let '(requestCounts', info) := checkRateLimit options clientKey (t_check clk) requestCounts in
    let hs := [ ("X-RateLimit-Limit", pretty (limit info));
                ("X-RateLimit-Remaining", pretty (remaining info));
                ("X-RateLimit-Reset", pretty (ceil_div (info_resetTime info) 1000)) ] in
    if negb (allowed info) then
      let retryAfterSeconds := Z.max 1 (ceil_div (info_resetTime info - t_retry clk) 1000) in
      (Done (hs ++ [("Retry-After", pretty retryAfterSeconds)])
            (Sent 429 (Some (too_many_requests_body retryAfterSeconds))),
       requestCounts')
    else (Continue hs tt, requestCounts').

(** The CORS middleware. *)
Definition corsStage (options : HttpMcpServerOptions) (req : Request) : Stage unit :=
  if negb (isOriginAllowed options (origin req)) then
    if decide (method req = "OPTIONS") then Done [] (Sent 403 None)
    else Done [] (Sent 403 (Some (error_body "Forbidden" "Origin not allowed by CORS policy")))
  else
    let allowOrigin :=
      match truthy (origin req) with
      | Some o => [("Access-Control-Allow-Origin", o)]
      | None => [("Access-Control-Allow-Origin", "*")]
      end in
    let hs := allowOrigin ++
      [ ("Access-Control-Allow-Methods", "GET, POST, DELETE, OPTIONS");
        ("Access-Control-Allow-Headers", "Content-Type, Authorization, Accept, Mcp-Session-Id");
        ("Access-Control-Expose-Headers", "Mcp-Session-Id");
        ("Access-Control-Allow-Credentials", "true") ] in
    if decide (method req = "OPTIONS") then Done hs (Sent 204 None)
    else Continue hs tt.

(** [app.use('/mcp', ...)] applies to [/mcp] and to every path below it. *)
Definition mounted_at_mcp (p : string) : bool :=
  bool_decide (p = "/mcp") || startsWith p "/mcp/".

Section Routes.
Variable decode : string -> option Jsonwebtoken.DecodedToken.

(** [setupRoutes]: the handlers in registration order.  Routes are matched
    on the exact method and path. *)
Definition routes (options : HttpMcpServerOptions) (req : Request) (clk : Clock)
  : Traced string Reply :=
  if decide (method req = "GET" ∧ path req = "/health") then
    tret (Sent 200 (Some (JObj [("status", JStr "healthy")])))
  else
    let authed : Traced string (Reply + option AuthMiddleware.AuthenticatedUser) :=
      if mounted_at_mcp (path req) then
        tbind (AuthMiddleware.createAuthMiddleware decode (jwtSecret options)
                 (authorization req) (t_verify clk))
          (fun o => match o with
                    | AuthMiddleware.Respond status error message =>
                      tret (inl (Sent status (Some (error_body error message))))
                    | AuthMiddleware.Next user => tret (inr (Some user))
                    end)
      else tret (inr None) in
    tbind authed (fun a =>
      match a with
      | inl reply => tret reply
      | inr user =>
        if decide (path req = "/mcp") then
          if decide (method req = "POST") then
            tret (HandedToMcp
                    (option_map (fun u => {| Types.userId := AuthMiddleware.userId u;
                                             Types.email := AuthMiddleware.email u;
                                             Types.role := AuthMiddleware.role u |}) user))
          else if decide (method req = "GET") then
            tret (Sent 405 (Some (error_body "Method Not Allowed"
              "GET requests are not supported in stateless mode. Use POST for MCP requests.")))
          else if decide (method req = "DELETE") then
            tret (Sent 405 (Some (error_body "Method Not Allowed"
              "Session termination is not supported in stateless mode.")))
          else tret (Sent 404 None)
        else tret (Sent 404 None)
      end).

(** One request through the middleware chain and the routes: the rate
    limiter's map afterwards, the lines logged, the headers set and the
    reply.  [express.json()] and the timeout timer sit between the security
    headers and the rate limiter; they decide nothing for a request whose body
    parses and that is answered in time, and are left out. *)
Definition handleRequest (options : HttpMcpServerOptions) (req : Request) (clk : Clock)
    (requestCounts : gmap string RateRecord)
  : gmap string RateRecord * Traced string (Headers * Reply) :=
  match rateLimitStage options req clk requestCounts with
  | (Done hs reply, requestCounts') => (requestCounts', tret (securityHeaders ++ hs, reply))
  | (Continue hs _, requestCounts') =>
    match corsStage options req with
    | Done hs' reply => (requestCounts', tret (securityHeaders ++ hs ++ hs', reply))
    | Continue hs' _ =>
      (requestCounts',
       tbind (routes options req clk)
             (fun reply => tret (securityHeaders ++ hs ++ hs', reply)))
    end
  end.

(** What happens to the server over time: requests arrive and the periodic
    sweep runs. *)
Inductive Event : Type :=
| Arrives (req : Request) (clk : Clock)
| Sweep (now : Z).

Definition step (options : HttpMcpServerOptions) (requestCounts : gmap string RateRecord)
    (e : Event) : gmap string RateRecord * option Reply :=
  match e with
  | Arrives req clk =>
    let '(requestCounts', out) := handleRequest options req clk requestCounts in
    (requestCounts', Some (snd (value_of out)))
  | Sweep now => (value_of (cleanupExpiredRateLimitEntries now requestCounts), None)
  end.

Fixpoint run (options : HttpMcpServerOptions) (requestCounts : gmap string RateRecord)
    (es : list Event) : gmap string RateRecord * list (Event * option Reply) :=
  match es with
  | [] => (requestCounts, [])
  | e :: es' =>
    let '(requestCounts', r) := step options requestCounts e in
    let '(final, rs) := run options requestCounts' es' in
    (final, (e, r) :: rs)
  end.
End Routes.

(** *** Observations used to state the properties of the rate limiter *)

Definition windowMs (options : HttpMcpServerOptions) : Z :=
  default 60000 (rateLimitWindowMs options).

Definition maxRequests (options : HttpMcpServerOptions) : Z :=
  default 100 (rateLimitMaxRequests options).

Definition is_429 (r : Reply) : bool :=
  match r with
  | Sent status _ => bool_decide (status = 429)
  | HandedToMcp _ => false
  end.

Definition reaches_mcp (r : Reply) : bool :=
  match r with HandedToMcp _ => true | Sent _ _ => false end.

(** The event is a request that the rate limiter counts against [clientKey]. *)
Definition counted_for (clientKey : string) (e : Event) : bool :=
  match e with
  | Arrives req _ => bool_decide (path req <> "/health" /\ getClientKey req = clientKey)
  | Sweep _ => false
  end.

(** The event happens in the window [[start, reset)], and its clock does not
    run backwards while it is served. *)
Definition in_window (start reset : Z) (e : Event) : Prop :=
  match e with
  | Arrives _ clk => start <= t_check clk < reset /\ t_check clk <= t_retry clk
  | Sweep now => start <= now < reset
  end.

(** No record of [clientKey] is live at time [now]. *)
Definition no_live_record (clientKey : string) (now : Z)
    (requestCounts : gmap string RateRecord) : Prop :=
  match requestCounts !! clientKey with
  | Some record => now >= resetTime record
  | None => True
  end.

(** The replies to the requests counted against [clientKey], in order. *)
Definition replies_for (clientKey : string) (outs : list (Event * option Reply)) : list Reply :=
  omap (fun '(e, r) => if counted_for clientKey e then r else None) outs.

End HttpServer.

(** ** src/index.ts: tool catalog and the [CallTool] request handler *)
Module Index.
Import Types.

(** *** zod, as the handler uses it *)

Inductive PathSegment : Type :=
| KeySegment (k : string)
| IndexSegment (i : Z).

Definition show_segment (p : PathSegment) : string :=
  match p with KeySegment k => k | IndexSegment i => pretty i end.

Record ZodIssue : Type := { path : list PathSegment; message : string }.

(** [schema.parse(x)]: the parsed value, or a thrown [ZodError] carrying
    [issues]. *)
Inductive ParseResult : Type :=
| Parsed (value : JsonValue)
| ZodError (issues : list ZodIssue).

(** What a [catch (error: unknown)] can receive. *)
Inductive Thrown : Type :=
| ThrownZodError (issues : list ZodIssue)     (* [error instanceof z.ZodError] *)
| ThrownError (message : string)              (* any other [Error] *)
| ThrownValue (asString : string).            (* not an [Error]; [String(error)] *)

Inductive Outcome (A : Type) : Type :=
| Returned (a : A)
| Threw (e : Thrown).
Arguments Returned {A} a.
Arguments Threw {A} e.

Record ToolContext : Type := {
  selfhostedClient : Utils.SelfhostedSupabaseClient;
  workspacePath : string;
  user : option UserContext
}.

Record AppTool : Type := {
  name : string;
  description : string;
  inputSchema : option JsonValue -> ParseResult;
  privilegeLevel : option ToolPrivilegeLevel;
  execute : JsonValue -> ToolContext -> Outcome JsonValue
}.

(** [ErrorCode] of the protocol library. *)
Inductive ErrorCode : Type := MethodNotFound | InvalidRequest.

(** How the handler ends: with a thrown [McpError] (a protocol-level error),
    or with a returned result [{ content: [{ type: 'text', text }], isError }]. *)
Inductive CallResult : Type :=
| McpError (code : ErrorCode) (message : string)
| ToolResult (text : string) (isError : bool).

Inductive Effect : Type :=
| ConsoleError (line : string)
| ConsoleErrorWith (line : string) (error : Thrown)
| SchemaParse (toolName : string) (arguments : option JsonValue)
| Execute (toolName : string) (parsedArgs : JsonValue) (context : ToolContext).

Definition is_execute (e : Effect) : bool :=
  match e with Execute _ _ _ => true | _ => false end.

Definition is_schema_parse (e : Effect) : bool :=
  match e with SchemaParse _ _ => true | _ => false end.

(** The call is not stopped by the privilege check: there is no identity, or
    the caller's role may use the tool's level. *)
Definition passes_authorization (userContext : option UserContext) (tool : AppTool) : bool :=
  match userContext with
  | Some u => canAccessTool (role u) (default regular (privilegeLevel tool))
  | None => true
  end.

(** The tool filtering logic of [main]: [registeredTools] from
    [availableTools] and the names of the configuration file, if any. *)
Definition registeredTools (availableTools : gmap string AppTool)
    (enabledToolNames : option (gset string)) : gmap string AppTool :=
  match enabledToolNames with
  | Some names => filter (λ kv : string * AppTool, kv.1 ∈ names) availableTools
  | None => availableTools
  end.

Definition disabled_message (toolName : string) : string :=
  "Tool " +:+ dquote +:+ toolName +:+ dquote
  +:+ " is available but not enabled by the current server configuration.".

Definition unknown_message (toolName : string) : string :=
  "Unknown tool: " +:+ toolName.

Definition audit_line (u : UserContext) (toolName : string) (lvl : ToolPrivilegeLevel) : string :=
  "[SECURITY] Access denied: User " +:+ or_else (email u) (userId u)
  +:+ " (role: " +:+ role u +:+ ") attempted to access " +:+ toolName
  +:+ " (requires: " +:+ show_level lvl +:+ ")".

Definition denied_message (u : UserContext) (toolName : string) (lvl : ToolPrivilegeLevel) : string :=
  "Access denied: Tool '" +:+ toolName +:+ "' requires '" +:+ show_level lvl +:+ "' privilege. "
  +:+ "Your role '" +:+ role u +:+ "' does not have sufficient permissions.".

(** [`${e.path.join('.')}: ${e.message}`] *)
Definition show_issue (e : ZodIssue) : string :=
  join "." (show_segment <$> path e) +:+ ": " +:+ message e.

Definition error_text (toolName : string) (error : Thrown) : string :=
  "Error executing tool " +:+ toolName +:+ ": " +:+
  match error with
  | ThrownZodError issues => "Input validation failed: " +:+ join ", " (show_issue <$> issues)
  | ThrownError message => message
  | ThrownValue s => s
  end.

Section Handler.
(** [JSON.stringify(result, null, 2)] *)
Variable JSON_stringify : JsonValue -> string.
Variable selfhostedClient' : Utils.SelfhostedSupabaseClient.
Variable workspacePath' : string.
Variable availableTools : gmap string AppTool.
Variable enabledToolNames : option (gset string).

(** The [catch] block of the handler. *)
Definition on_error (toolName : string) (error : Thrown) : Traced Effect CallResult :=
  temit (ConsoleErrorWith ("Error executing tool " +:+ toolName +:+ ":") error) ;;;
  tret (ToolResult (error_text toolName error) true).

(** The [try] block of the handler: validate, then execute. *)
Definition run_tool (tool : AppTool) (userContext : option UserContext)
    (toolName : string) (arguments : option JsonValue) : Traced Effect CallResult :=
  temit (SchemaParse toolName arguments) ;;;
  match inputSchema tool arguments with
  | ZodError issues => on_error toolName (ThrownZodError issues)
  | Parsed parsedArgs =>
    let context := {| selfhostedClient := selfhostedClient';
                      workspacePath := workspacePath';
                      user := userContext |} in
    temit (Execute toolName parsedArgs context) ;;;
    match execute tool parsedArgs context with
    | Returned result =>
      tret (ToolResult (match result with
                        | JStr text => text
                        | _ => JSON_stringify result
                        end) false)
    | Threw e => on_error toolName e
    end
  end.

(** The handler installed by [createMcpServer(userContext)] for
    [CallToolRequestSchema]. *)
Definition callTool (userContext : option UserContext)
    (toolName : string) (arguments : option JsonValue) : Traced Effect CallResult :=
  match registeredTools availableTools enabledToolNames !! toolName with
  | None =>
    if bool_decide (is_Some (availableTools !! toolName)) then
      tret (McpError MethodNotFound (disabled_message toolName))
    else
      tret (McpError MethodNotFound (unknown_message toolName))
  | Some tool =>
    match userContext with
    | Some u =>
      let toolPrivilegeLevel := default regular (privilegeLevel tool) in
      if negb (canAccessTool (role u) toolPrivilegeLevel) then
        temit (ConsoleError (audit_line u toolName toolPrivilegeLevel)) ;;;
        tret (McpError InvalidRequest (denied_message u toolName toolPrivilegeLevel))
      else run_tool tool userContext toolName arguments
    | None => run_tool tool userContext toolName arguments
    end
  end.
End Handler.

End Index.

(** ** Concrete configurations, tools, tokens and requests

    Used where a property is evaluated on an explicit input. *)
Module Fixtures.
Import Utils Types Index.

(** A client with both credentials configured whose database reports an
    error for every statement. *)
Definition failing_pg_client : SelfhostedSupabaseClient :=
  {| isPgAvailable := true;
     isServiceRoleAvailable := true;
     executeSqlWithPg := fun _ =>
       Fulfilled (SqlErrorResponse {| Utils.message := "relation does not exist"; code := "42P01" |});
     executeSqlViaServiceRoleRpc := fun _ _ => Fulfilled (SqlSuccessResponse []) |}.

(** A client with neither a direct connection nor a service-role key. *)
Definition anon_only_client : SelfhostedSupabaseClient :=
  {| isPgAvailable := false;
     isServiceRoleAvailable := false;
     executeSqlWithPg := fun _ => Rejected "pg pool not available";
     executeSqlViaServiceRoleRpc := fun _ _ => Rejected "service role client not available" |}.

Definition json_type (v : JsonValue) : string :=
  match v with
  | JNull => "null" | JBool _ => "boolean" | JNum _ => "number"
  | JStr _ => "string" | JArr _ => "array" | JObj _ => "object"
  end.

Definition field (k : string) (fields : list (string * JsonValue)) : option JsonValue :=
  snd <$> List.find (fun kv => bool_decide (kv.1 = k)) fields.

(** [ExecuteSqlInputSchema] of src/tools/execute_sql.ts:
    [z.object({ sql: z.string(), read_only: z.boolean().optional().default(false) })].
    One issue per offending field; the wording of the messages is the
    library's. *)
Definition ExecuteSqlInputSchema (arguments : option JsonValue) : ParseResult :=
  match arguments with
  | Some (JObj fields) =>
    let sql_issues :=
      match field "sql" fields with
      | Some (JStr _) => []
      | Some v => [{| path := [KeySegment "sql"];
                      message := "Expected string, received " +:+ json_type v |}]
      | None => [{| path := [KeySegment "sql"]; message := "Required" |}]
      end in
    let read_only_issues :=
      match field "read_only" fields with
      | None | Some (JBool _) => []
      | Some v => [{| path := [KeySegment "read_only"];
                      message := "Expected boolean, received " +:+ json_type v |}]
      end in
    match sql_issues ++ read_only_issues with
    | [] => Parsed (JObj [("sql", default JNull (field "sql" fields));
                          ("read_only", default (JBool false) (field "read_only" fields))])
    | issues => ZodError issues
    end
  | Some v => ZodError [{| path := []; message := "Expected object, received " +:+ json_type v |}]
  | None => ZodError [{| path := []; message := "Required" |}]
  end.

Definition sql_outcome (r : Awaited SqlExecutionResult) : Outcome JsonValue :=
  match r with
  | Fulfilled (SqlSuccessResponse rows) => Returned (JArr rows)
  | Fulfilled (SqlErrorResponse e) =>
    Threw (ThrownError ("SQL Error (" +:+ code e +:+ "): " +:+ Utils.message e))
  | Rejected reason => Threw (ThrownError reason)
  end.

(** [executeSqlTool] of src/tools/execute_sql.ts. *)
Definition executeSqlTool : AppTool :=
  {| name := "execute_sql";
     description := "Executes an arbitrary SQL query against the database. SECURITY: Requires service_role key or direct database connection.";
     inputSchema := ExecuteSqlInputSchema;
     privilegeLevel := Some privileged;
     execute := fun input context =>
       let client := selfhostedClient context in
       if negb (isPgAvailable client) && negb (isServiceRoleAvailable client) then
         Threw (ThrownError "execute_sql requires either a direct database connection (DATABASE_URL) or a service role key (SUPABASE_SERVICE_ROLE_KEY) to be configured. This tool cannot be used with only the anon key for security reasons.")
       else
         match input with
         | JObj [("sql", JStr sql); ("read_only", JBool read_only)] =>
           sql_outcome (value_of (executeSqlWithFallback client sql (Some read_only)))
         | _ => Threw (ThrownError "input does not match ExecuteSqlInput")
         end |}.

(** [listVectorIndexesTool]: its descriptor has no [privilegeLevel]. *)
Definition listVectorIndexesTool : AppTool :=
  {| name := "list_vector_indexes";
     description := "Lists all pgvector indexes (ivfflat, hnsw) in the database. Returns empty array if pgvector is not installed or no vector indexes exist.";
     inputSchema := fun arguments =>
       match arguments with
       | Some (JObj _) => Parsed (JObj [])
       | Some v => ZodError [{| path := []; message := "Expected object, received " +:+ json_type v |}]
       | None => ZodError [{| path := []; message := "Required" |}]
       end;
     privilegeLevel := None;
     execute := fun _ context =>
       sql_outcome (value_of (executeSqlWithFallback (selfhostedClient context)
         "SELECT ix.relname AS index_name, t.relname AS table_name, n.nspname AS schema_name, am.amname AS index_method, pg_get_indexdef(i.indexrelid) AS index_definition FROM pg_index i JOIN pg_class t ON t.oid = i.indrelid JOIN pg_class ix ON ix.oid = i.indexrelid JOIN pg_namespace n ON n.oid = t.relnamespace JOIN pg_am am ON am.oid = ix.relam WHERE am.amname IN ('ivfflat', 'hnsw') AND n.nspname NOT IN ('pg_catalog', 'information_schema', 'pg_toast') ORDER BY n.nspname, t.relname, ix.relname"
         (Some true))) |}.

(** Two entries of [availableTools]. *)
Definition two_tools : gmap string AppTool :=
  <[name executeSqlTool := executeSqlTool]>
    (<[name listVectorIndexesTool := listVectorIndexesTool]> ∅).

(** A tools configuration file that enables only [list_vector_indexes]. *)
Definition only_vector_indexes : option (gset string) := Some {["list_vector_indexes"]}.

Definition stringify_stub (v : JsonValue) : string := "[json]".

Definition alice : UserContext :=
  {| userId := "user-123"; email := Some "alice@example.com"; role := "authenticated" |}.

Definition admin : UserContext :=
  {| userId := "user-456"; email := None; role := "admin" |}.

(** Arguments for [execute_sql] with two offending fields. *)
Definition bad_sql_arguments : option JsonValue :=
  Some (JObj [("sql", JNum 42); ("read_only", JStr "yes")]).

(** *** Tokens *)

Definition test_secret : string := "test-jwt-secret-key-for-testing".

Definition claims (subject : string) (expiry : option Z) : Jsonwebtoken.SupabaseJwtPayload :=
  {| Jsonwebtoken.sub := Some subject; Jsonwebtoken.email := None; Jsonwebtoken.role := None;
     Jsonwebtoken.aud := None; Jsonwebtoken.exp := expiry; Jsonwebtoken.iat := None;
     Jsonwebtoken.nbf := None |}.

(** Three tokens named by what they are: signed with [test_secret] and
    expired at second 1000; signed with [test_secret] and valid until second
    10000; signed with another secret. *)
Definition decode_fixture (token : string) : option Jsonwebtoken.DecodedToken :=
  if decide (token = "expired-token") then
    Some {| Jsonwebtoken.alg := "HS256";
            Jsonwebtoken.payload := claims "user-123" (Some 1000);
            Jsonwebtoken.signature_verifies := fun s => bool_decide (s = test_secret) |}
  else if decide (token = "valid-token") then
    Some {| Jsonwebtoken.alg := "HS256";
            Jsonwebtoken.payload := claims "user-123" (Some 10000);
            Jsonwebtoken.signature_verifies := fun s => bool_decide (s = test_secret) |}
  else if decide (token = "forged-token") then
    Some {| Jsonwebtoken.alg := "HS256";
            Jsonwebtoken.payload := claims "user-123" (Some 10000);
            Jsonwebtoken.signature_verifies := fun s => bool_decide (s = "wrong-secret") |}
  else None.

(** *** HTTP *)

Definition http_options (window maxCount : option Z) : HttpServer.HttpMcpServerOptions :=
  {| HttpServer.port := 3000; HttpServer.host := "127.0.0.1";
     HttpServer.jwtSecret := test_secret; HttpServer.corsOrigins := None;
     HttpServer.rateLimitWindowMs := window; HttpServer.rateLimitMaxRequests := maxCount;
     HttpServer.requestTimeoutMs := None |}.

Definition request (method path : string) (origin authorization : option string)
  : HttpServer.Request :=
  {| HttpServer.method := method; HttpServer.path := path;
     HttpServer.origin := origin; HttpServer.authorization := authorization;
     HttpServer.x_forwarded_for := None; HttpServer.ip := Some "10.0.0.1";
     HttpServer.remoteAddress := Some "10.0.0.1" |}.

Definition at_ms (t : Z) : HttpServer.Clock :=
  {| HttpServer.t_check := t; HttpServer.t_retry := t; HttpServer.t_verify := t |}.

(** The quota of [10.0.0.1] is used up until millisecond 60000. *)
Definition exhausted : gmap string HttpServer.RateRecord :=
  {[ "10.0.0.1" := {| HttpServer.count := 100; HttpServer.resetTime := 60000 |} ]}.

End Fixtures.

(** ** More string helpers *)

(** Every character of [s] satisfies [P]. *)
Fixpoint string_forallb (P : ascii -> bool) (s : string) : bool :=
  match s with
  | EmptyString => true
  | String c rest => P c && string_forallb P rest
  end.

Definition in_range (lo hi : nat) (c : ascii) : bool :=
  (lo <=? nat_of_ascii c)%nat && (nat_of_ascii c <=? hi)%nat.

(** [[a-zA-Z]] *)
Definition is_letter (c : ascii) : bool := in_range 65 90 c || in_range 97 122 c.

(** [[0-9]] *)
Definition is_digit (c : ascii) : bool := in_range 48 57 c.

(** ** src/tools/utils.ts: handling of a SQL result *)
Module SqlResponse.
Import Utils Index.

(** [isSqlErrorResponse(result)] *)
Definition isSqlErrorResponse (result : SqlExecutionResult) : bool :=
  match result with
  | SqlErrorResponse _ => true
  | SqlSuccessResponse _ => false
  end.

(** [handleSqlResponse(result, schema)]: the parsed rows, or a thrown
    [Error].  [schema.parse] is given the whole result, an array of rows. *)
Definition handleSqlResponse (result : SqlExecutionResult) (schema : JsonValue -> ParseResult)
  : Outcome JsonValue :=
  match result with
  | SqlErrorResponse e =>
    Threw (ThrownError ("SQL Error (" +:+ code e +:+ "): " +:+ Utils.message e))
  | SqlSuccessResponse rows =>
    match schema (JArr rows) with
    | Parsed value => Returned value
    | ZodError issues =>
      Threw (ThrownError ("Schema validation failed: " +:+ join ", " (show_issue <$> issues)))
    end
  end.

(** [handleSqlResponse(await p, schema)]: a rejected promise is rethrown. *)
Definition handle_awaited (p : Awaited SqlExecutionResult) (schema : JsonValue -> ParseResult)
  : Outcome JsonValue :=
  match p with
  | Fulfilled result => handleSqlResponse result schema
  | Rejected reason => Threw (ThrownError reason)
  end.

End SqlResponse.

(** ** src/tools/execute_sql.ts: the body of [executeSqlTool] *)
Module ExecuteSql.
Import Utils Types Index SqlResponse.

(** What the body does besides returning: console lines, calls of
    [context.log], and the effects of the fallback chain. *)
Inductive ToolEffect : Type :=
| ConsoleLine (line : string)
| ContextLog (message level : string)
| Chain (e : Utils.Effect).

Definition lift_chain {A} (m : Traced Utils.Effect A) : Traced ToolEffect A :=
  (Chain <$> m.1, m.2).

(** [ExecuteSqlInput], after parsing by [ExecuteSqlInputSchema]. *)
Record ExecuteSqlInput : Type := { sql : string; read_only : bool }.

(** [ExecuteSqlOutputSchema = z.array(z.unknown())] *)
Definition ExecuteSqlOutputSchema (v : JsonValue) : ParseResult :=
  match v with
  | JArr _ => Parsed v
  | _ => ZodError [{| path := []; message := "Expected array" |}]
  end.

Definition userInfo (user : option UserContext) : string :=
  match user with
  | Some u => "user=" +:+ or_else (email u) (userId u) +:+ " role=" +:+ role u
  | None => "user=unknown (stdio mode)"
  end.

(** The query as it is written to the audit line. *)
Definition queryPreview (sql : string) : string :=
  if (200 <? String.length sql)%nat then
    String.substring 0 200 sql +:+ "... [truncated, " +:+ pretty (String.length sql)
    +:+ " chars total]"
  else sql.

Definition show_bool (b : bool) : string := if b then "true" else "false".

Definition NOT_CONFIGURED : string :=
  "execute_sql requires either a direct database connection (DATABASE_URL) or a service role key (SUPABASE_SERVICE_ROLE_KEY) to be configured. This tool cannot be used with only the anon key for security reasons.".

(** [executeSqlTool.execute(input, context)] *)
Definition execute (input : ExecuteSqlInput) (context : ToolContext)
  : Traced ToolEffect (Outcome JsonValue) :=
  let client := selfhostedClient context in
  if negb (isPgAvailable client) && negb (isServiceRoleAvailable client) then
    tret (Threw (ThrownError NOT_CONFIGURED))
  else
    temit (ConsoleLine ("[AUDIT] SQL execution by " +:+ userInfo (user context) +:+ ": "
                        +:+ queryPreview (sql input))) ;;;
    temit (ContextLog ("Executing SQL (readOnly: " +:+ show_bool (read_only input) +:+ ")")
                      "info") ;;;
    tbind (lift_chain (executeSqlWithFallback client (sql input) (Some (read_only input))))
          (fun result => tret (handle_awaited result ExecuteSqlOutputSchema)).



End ExecuteSql.

(** ** src/tools/get_index_stats.ts *)
Module GetIndexStats.
Import Utils Index SqlResponse.

(** [identifierPattern = /^[a-zA-Z_][a-zA-Z0-9_$]*$/] *)
Definition identifier_start (c : ascii) : bool :=
  is_letter c || bool_decide (c = "_"%char).

Definition identifier_part (c : ascii) : bool :=
  is_letter c || is_digit c || bool_decide (c = "_"%char) || bool_decide (c = "$"%char).

(** [identifierPattern.test(s)] *)
Definition identifierPattern_test (s : string) : bool :=
  match s with
  | EmptyString => false
  | String c rest => identifier_start c && string_forallb identifier_part rest
  end.

Record GetIndexStatsInput : Type := { schema : string; index_name : string }.

Definition sql_before_schema : string :=
  "
            SELECT
                s.schemaname AS schema_name,
                s.relname AS table_name,
                s.indexrelname AS index_name,
                am.amname AS index_type,
                i.indisunique AS is_unique,
                i.indisprimary AS is_primary,
                i.indisvalid AS is_valid,
                COALESCE(s.idx_scan, 0)::bigint AS number_of_scans,
                COALESCE(s.idx_tup_read, 0)::bigint AS tuples_read,
                COALESCE(s.idx_tup_fetch, 0)::bigint AS tuples_fetched,
                pg_size_pretty(pg_relation_size(s.indexrelid)) AS index_size,
                pg_size_pretty(pg_relation_size(s.relid)) AS table_size,
                pg_relation_size(s.indexrelid)::bigint AS index_size_bytes,
                pg_relation_size(s.relid)::bigint AS table_size_bytes,
                CASE
                    WHEN (st.seq_scan + st.idx_scan) > 0
                    THEN ROUND((st.idx_scan::numeric / (st.seq_scan + st.idx_scan)::numeric) * 100, 2)::text || '%'
                    ELSE NULL
                END AS usage_ratio
            FROM pg_stat_user_indexes s
            JOIN pg_catalog.pg_index i ON i.indexrelid = s.indexrelid
            JOIN pg_catalog.pg_class c ON c.oid = s.indexrelid
            JOIN pg_catalog.pg_am am ON am.oid = c.relam
            JOIN pg_stat_user_tables st ON st.relid = s.relid
            WHERE s.schemaname = '".

Definition sql_between : string :=
  "'
              AND s.indexrelname = '".

Definition sql_after_index : string :=
  "'
            LIMIT 1
        ".

(** The statement built by the template literal. *)
Definition index_stats_sql (schema index_name : string) : string :=
  sql_before_schema +:+ schema +:+ sql_between +:+ index_name +:+ sql_after_index.

Section Execute.
(** [GetIndexStatsOutputSchema.parse] *)
Variable GetIndexStatsOutputSchema : JsonValue -> ParseResult.

(** What the body does with the settled result of the chain. *)
Definition on_result (input : GetIndexStatsInput) (result : Awaited SqlExecutionResult)
  : Outcome JsonValue :=
  match result with
  | Rejected reason => Threw (ThrownError reason)
  | Fulfilled (SqlErrorResponse e) =>
    Threw (ThrownError (or_else (Some (Utils.message e)) "Failed to get index stats"))
  | Fulfilled (SqlSuccessResponse []) =>
    Threw (ThrownError ("Index " +:+ dquote +:+ index_name input +:+ dquote
                        +:+ " not found in schema " +:+ dquote +:+ schema input +:+ dquote +:+ "."))
  | Fulfilled (SqlSuccessResponse (row :: _)) =>
    match GetIndexStatsOutputSchema row with
    | Parsed value => Returned value
    | ZodError issues => Threw (ThrownZodError issues)
    end
  end.

(** [getIndexStatsTool.execute(input, context)] *)
Definition execute (input : GetIndexStatsInput) (context : ToolContext)
  : Traced Utils.Effect (Outcome JsonValue) :=
  let client := selfhostedClient context in
  if negb (identifierPattern_test (schema input)) then
    tret (Threw (ThrownError ("Invalid schema name: " +:+ schema input
                              +:+ ". Must be a valid SQL identifier.")))
  else if negb (identifierPattern_test (index_name input)) then
    tret (Threw (ThrownError ("Invalid index name: " +:+ index_name input
                              +:+ ". Must be a valid SQL identifier.")))
  else
    tbind (executeSqlWithFallback client
             (index_stats_sql (schema input) (index_name input)) (Some true))
          (fun result => tret (on_result input result)).
End Execute.

End GetIndexStats.

(** ** src/index.ts: the capability listing *)
Module Capabilities.
Import Index.

(** [McpToolSchema] *)
Record McpToolSchema : Type := {
  schema_name : string;
  schema_description : string;
  schema_inputSchema : JsonValue
}.

Section Listing.
(** The static [mcpInputSchema] of a tool object. *)
Variable mcpInputSchema : AppTool -> JsonValue.

Definition schema_of (tool : AppTool) : McpToolSchema :=
  {| schema_name := name tool;
     schema_description := or_else (Some (description tool)) "Tool description missing";
     schema_inputSchema := mcpInputSchema tool |}.

(** [capabilitiesTools]: one assignment [capabilitiesTools[tool.name] = ...]
    per value of [registeredTools]. *)
Definition capabilitiesTools (registered : gmap string AppTool) : gmap string McpToolSchema :=
  map_fold (fun _ tool acc => <[name tool := schema_of tool]> acc) ∅ registered.

(** The [ListTools] handler: [Object.values(capabilities.tools)]. *)
Definition listTools (registered : gmap string AppTool) : list McpToolSchema :=
  snd <$> map_to_list (capabilitiesTools registered).
End Listing.

(** Every tool is filed under its own name, as in the object literal of
    [main]. *)
Definition keyed_by_name (tools : gmap string AppTool) : Prop :=
  map_Forall (fun k tool => name tool = k) tools.

End Capabilities.

(** ** Invariants of the rate limiter's map *)
Module RateLimitInvariant.
Import HttpServer.

(** Every stored count is at least 1 and at most the maximum (or 1, when the
    configured maximum is smaller). *)
Definition counts_bounded (options : HttpMcpServerOptions) (m : gmap string RateRecord) : Prop :=
  map_Forall (fun _ record => 1 <= count record <= Z.max 1 (maxRequests options)) m.

(** [Object.entries(headers)] has the header [name] with value [v]. *)
Definition has_header (name v : string) (hs : Headers) : Prop := (name, v) ∈ hs.

(** The list [allowedOrigins] of [isOriginAllowed]. *)
Definition allowedOrigins (options : HttpMcpServerOptions) : list string :=
  default [ "http://localhost:" +:+ pretty (port options);
            "http://127.0.0.1:" +:+ pretty (port options);
            "http://" +:+ host options +:+ ":" +:+ pretty (port options) ]
          (corsOrigins options).

(** Two clients, one of them at its limit until millisecond 60000. *)
Definition two_clients : gmap string RateRecord :=
  <["10.0.0.1" := {| count := 100; resetTime := 60000 |}]>
    (<["10.0.0.2" := {| count := 3; resetTime := 20000 |}]> ∅).

End RateLimitInvariant.

(** ** More concrete inputs *)
Module MoreFixtures.

(** A token signed with [test_secret] that carries no [exp] claim. *)
Definition decode_no_exp (token : string) : option Jsonwebtoken.DecodedToken :=
  if decide (token = "no-exp-token") then
    Some {| Jsonwebtoken.alg := "HS256";
            Jsonwebtoken.payload := Fixtures.claims "user-789" None;
            Jsonwebtoken.signature_verifies := fun s => bool_decide (s = Fixtures.test_secret) |}
  else None.

Definition service : Types.UserContext :=
  {| Types.userId := "svc"; Types.email := None; Types.role := "service_role" |}.

Definition anonymous : Types.UserContext :=
  {| Types.userId := "anon-1"; Types.email := None; Types.role := "anon" |}.

Definition no_schema (tool : Index.AppTool) : JsonValue := JObj [].

(** A client with a direct connection that returns one empty row. *)
Definition one_row_client : Utils.SelfhostedSupabaseClient :=
  {| Utils.isPgAvailable := true;
     Utils.isServiceRoleAvailable := false;
     Utils.executeSqlWithPg := fun _ => Fulfilled (Utils.SqlSuccessResponse [JObj []]);
     Utils.executeSqlViaServiceRoleRpc := fun _ _ => Rejected "service role client not available" |}.

(** An output schema that finds a field missing in every row. *)
Definition missing_index_size (row : JsonValue) : Index.ParseResult :=
  Index.ZodError [{| Index.path := [Index.KeySegment "index_size"];
                     Index.message := "Required" |}].

Definition string_field (k : string) (fallback : string) (v : JsonValue) : string :=
  match v with
  | JObj fields =>
    match Fixtures.field k fields with
    | Some (JStr s) => s
    | _ => fallback
    end
  | _ => fallback
  end.

(** [getIndexStatsTool] as a catalog entry; its output schema is
    [missing_index_size]. *)
Definition getIndexStatsTool : Index.AppTool :=
  {| Index.name := "get_index_stats";
     Index.description := "Gets detailed statistics for a specific index including usage counts and size.";
     Index.inputSchema := fun arguments =>
       match arguments with
       | Some (JObj fields) =>
         match Fixtures.field "index_name" fields with
         | Some (JStr i) =>
           Index.Parsed (JObj [("schema", JStr (string_field "schema" "public" (JObj fields)));
                               ("index_name", JStr i)])
         | _ => Index.ZodError [{| Index.path := [Index.KeySegment "index_name"];
                                   Index.message := "Required" |}]
         end
       | _ => Index.ZodError [{| Index.path := []; Index.message := "Required" |}]
       end;
     Index.privilegeLevel := Some Types.regular;
     Index.execute := fun input context =>
       value_of (GetIndexStats.execute missing_index_size
                   {| GetIndexStats.schema := string_field "schema" "public" input;
                      GetIndexStats.index_name := string_field "index_name" EmptyString input |}
                   context) |}.

Definition three_tools : gmap string Index.AppTool :=
  <[Index.name getIndexStatsTool := getIndexStatsTool]> Fixtures.two_tools.

Definition index_arguments : option JsonValue :=
  Some (JObj [("index_name", JStr "users_pkey")]).

End MoreFixtures.

(** * Properties *)

(** ** Traces *)

Lemma trace_bind {E A B} (m : Traced E A) (k : A -> Traced E B) :
  trace_of (tbind m k) = trace_of m ++ trace_of (k (value_of m)).
Proof. destruct m as [t a]; simpl. destruct (k a); reflexivity. Qed.

Lemma value_bind {E A B} (m : Traced E A) (k : A -> Traced E B) :
  value_of (tbind m k) = value_of (k (value_of m)).
Proof. destruct m as [t a]; simpl. destruct (k a); reflexivity. Qed.

(** ** Access control (src/tools/types.ts) *)
Section AccessControl.
Import Types.

Lemma ROLE_PRIVILEGE_MAP_lookup (r : string) :
  ROLE_PRIVILEGE_MAP !! r =
    if decide (r = "service_role") then Some [regular; privileged]
    else if decide (r = "authenticated") then Some [regular]
    else if decide (r = "anon") then Some []
    else None.
Proof.
  unfold ROLE_PRIVILEGE_MAP.
  repeat (rewrite lookup_insert; case_decide; subst;
          [repeat case_decide; try congruence; try reflexivity|]).
  rewrite lookup_empty. repeat case_decide; congruence.
Qed.

Lemma canAccessTool_eq (r : string) (p : ToolPrivilegeLevel) :
  canAccessTool r p =
    if decide (r = "service_role") then true
    else if decide (r = "anon") then false
    else bool_decide (p = regular).
Proof.
  unfold canAccessTool. rewrite !ROLE_PRIVILEGE_MAP_lookup.
  destruct (decide (r = "service_role")) as [->|?]; [by destruct p|].
  destruct (decide (r = "authenticated")) as [->|?]; [by destruct p|].
  destruct (decide (r = "anon")) as [->|?]; by destruct p.
Qed.

(** C2.  [canAccessTool] is exactly membership in the fixed policy table:
    [service_role] may use both levels, [authenticated] only [regular], [anon]
    nothing, and a role string outside the table is decided by the entry of
    [authenticated]; only [service_role] ever reaches a privileged tool. *)
Theorem canAccessTool_policy_table (r : string) (p : ToolPrivilegeLevel) :
  canAccessTool r p = bool_decide (p ∈ allowedPrivileges_spec r)
  ∧ canAccessTool "service_role" p = true
  ∧ canAccessTool "authenticated" p = bool_decide (p = regular)
  ∧ canAccessTool "anon" p = false
  ∧ canAccessTool r p = canAccessTool (effective_role r) p
  ∧ canAccessTool r privileged = bool_decide (r = "service_role").
Proof.
  split_and!.
  - rewrite canAccessTool_eq. unfold allowedPrivileges_spec.
    destruct (decide (r = "service_role")); [by destruct p|].
    destruct (decide (r = "anon")); by destruct p.
  - destruct p; reflexivity.
  - destruct p; reflexivity.
  - destruct p; reflexivity.
  - unfold effective_role. case_bool_decide as Hin; [reflexivity|].
    rewrite !canAccessTool_eq.
    destruct (decide (r = "service_role")) as [->|?]; [exfalso; apply Hin; set_solver|].
    destruct (decide (r = "anon")) as [->|?]; [exfalso; apply Hin; set_solver|].
    reflexivity.
  - rewrite canAccessTool_eq.
    destruct (decide (r = "service_role")) as [->|?]; [reflexivity|].
    rewrite (bool_decide_eq_false_2 (r = "service_role")) by done.
    destruct (decide (r = "anon")); reflexivity.
Qed.
End AccessControl.

(** ** SQL execution fallback chain (src/tools/utils.ts) *)
Section FallbackChain.
Import Utils Fixtures.

Lemma fallback_pg (client : SelfhostedSupabaseClient) sql ro :
  isPgAvailable client = true ->
  executeSqlWithFallback client sql ro =
    ([ConsoleInfo "Using direct database connection (bypassing JWT)...";
      Backend (ExecuteSqlWithPg sql)],
     executeSqlWithPg client sql).
Proof. intros H. unfold executeSqlWithFallback. rewrite H. reflexivity. Qed.

Lemma fallback_rpc (client : SelfhostedSupabaseClient) sql ro :
  isPgAvailable client = false ->
  isServiceRoleAvailable client = true ->
  executeSqlWithFallback client sql ro =
    ([ConsoleInfo "Using service role RPC method...";
      Backend (ExecuteSqlViaServiceRoleRpc sql (default true ro))],
     executeSqlViaServiceRoleRpc client sql (default true ro)).
Proof. intros H1 H2. unfold executeSqlWithFallback. rewrite H1, H2. reflexivity. Qed.

Lemma fallback_unavailable (client : SelfhostedSupabaseClient) sql ro :
  isPgAvailable client = false ->
  isServiceRoleAvailable client = false ->
  executeSqlWithFallback client sql ro =
    ([], Fulfilled (SqlErrorResponse
           {| message := CONFIG_ERROR_MESSAGE; code := "MCP_CONFIG_ERROR" |})).
Proof. intros H1 H2. unfold executeSqlWithFallback. rewrite H1, H2. reflexivity. Qed.

(** C3.  With a direct connection configured, the chain runs the statement
    over it and returns whatever it settles to (rows, a database error or a
    rejection), making that one backend call and no other; in general a call
    of the service-role RPC is in the trace exactly when no direct connection
    is configured and a service-role key is. *)
Theorem executeSqlWithFallback_direct_first
    (client : SelfhostedSupabaseClient) (sql : string) (readOnly : option bool) :
  (isPgAvailable client = true ->
     value_of (executeSqlWithFallback client sql readOnly) = executeSqlWithPg client sql
     ∧ backend_calls (trace_of (executeSqlWithFallback client sql readOnly))
       = [Backend (ExecuteSqlWithPg sql)])
  ∧ existsb is_rpc (trace_of (executeSqlWithFallback client sql readOnly))
    = negb (isPgAvailable client) && isServiceRoleAvailable client.
Proof.
  split.
  - intros H. rewrite fallback_pg by done. split; reflexivity.
  - destruct (isPgAvailable client) eqn:Hpg.
    + rewrite fallback_pg by done. reflexivity.
    + destruct (isServiceRoleAvailable client) eqn:Hsr.
      * rewrite fallback_rpc by done. reflexivity.
      * rewrite fallback_unavailable by done. reflexivity.
Qed.

Lemma executeSqlWithFallback_direct_first_witness :
  value_of (executeSqlWithFallback failing_pg_client "SELECT * FROM t" (Some true))
    = Fulfilled (SqlErrorResponse {| message := "relation does not exist"; code := "42P01" |})
  ∧ backend_calls (trace_of (executeSqlWithFallback failing_pg_client "SELECT * FROM t" (Some true)))
    = [Backend (ExecuteSqlWithPg "SELECT * FROM t")].
Proof.
  exact (proj1 (executeSqlWithFallback_direct_first failing_pg_client
                  "SELECT * FROM t" (Some true)) eq_refl).
Defined.

(** C6, as stated, fails on the error code: the code returned when neither
    credential is configured is not [CONFIG_ERROR]. *)
Lemma executeSqlWithFallback_code_counterexample :
  error_code (value_of (executeSqlWithFallback anon_only_client "SELECT 1" None))
    <> Some "CONFIG_ERROR".
Proof. vm_compute. discriminate. Qed.

(** C6, amended.  With neither credential configured the chain returns, for
    every statement, the configuration error whose code is [MCP_CONFIG_ERROR]
    and calls no primitive; and a run of the chain without a backend call is
    always this branch. *)
Theorem executeSqlWithFallback_unconfigured
    (client : SelfhostedSupabaseClient) (sql : string) (readOnly : option bool) :
  (isPgAvailable client = false ->
   isServiceRoleAvailable client = false ->
     executeSqlWithFallback client sql readOnly
       = ([], Fulfilled (SqlErrorResponse
                {| message := CONFIG_ERROR_MESSAGE; code := "MCP_CONFIG_ERROR" |})))
  ∧ (backend_calls (trace_of (executeSqlWithFallback client sql readOnly)) = [] ->
       isPgAvailable client = false ∧ isServiceRoleAvailable client = false
       ∧ error_code (value_of (executeSqlWithFallback client sql readOnly))
         = Some "MCP_CONFIG_ERROR").
Proof.
  split.
  - apply fallback_unavailable.
  - destruct (isPgAvailable client) eqn:Hpg.
    + rewrite fallback_pg by done. discriminate.
    + destruct (isServiceRoleAvailable client) eqn:Hsr.
      * rewrite fallback_rpc by done. discriminate.
      * rewrite fallback_unavailable by done. done.
Qed.

Lemma executeSqlWithFallback_unconfigured_witness :
  executeSqlWithFallback anon_only_client "SELECT 1" None
    = ([], Fulfilled (SqlErrorResponse
             {| message := CONFIG_ERROR_MESSAGE; code := "MCP_CONFIG_ERROR" |}))
  ∧ (isPgAvailable anon_only_client = false ∧ isServiceRoleAvailable anon_only_client = false
     ∧ error_code (value_of (executeSqlWithFallback anon_only_client "SELECT 1" None))
       = Some "MCP_CONFIG_ERROR").
Proof.
  split.
  - exact (proj1 (executeSqlWithFallback_unconfigured anon_only_client "SELECT 1" None)
             eq_refl eq_refl).
  - exact (proj2 (executeSqlWithFallback_unconfigured anon_only_client "SELECT 1" None)
             eq_refl).
Defined.
End FallbackChain.

(** ** Strings *)

Lemma string_app_assoc (a b c : string) : (a +:+ b) +:+ c = a +:+ (b +:+ c).
Proof.
  induction a as [|x a IH]; [reflexivity|].
  change (String x ((a +:+ b) +:+ c) = String x (a +:+ (b +:+ c))). by rewrite IH.
Qed.

Lemma string_app_nil_r (a : string) : a +:+ EmptyString = a.
Proof.
  induction a as [|x a IH]; [reflexivity|].
  change (String x (a +:+ EmptyString) = String x a). by rewrite IH.
Qed.

Lemma occurs_in_refl (s : string) : occurs_in s s.
Proof.
  exists EmptyString, EmptyString.
  change (s = s +:+ EmptyString). by rewrite string_app_nil_r.
Qed.

Lemma occurs_in_app_l (t a b : string) : occurs_in t a -> occurs_in t (a +:+ b).
Proof.
  intros (p & q & ->). exists p, (q +:+ b).
  by rewrite !string_app_assoc.
Qed.

Lemma occurs_in_app_r (t a b : string) : occurs_in t b -> occurs_in t (a +:+ b).
Proof.
  intros (p & q & ->). exists (a +:+ p), q.
  by rewrite !string_app_assoc.
Qed.

Lemma occurs_in_join (sep x : string) (l : list string) :
  x ∈ l -> occurs_in x (join sep l).
Proof.
  induction l as [|y l IH]; intros Hin.
  - by apply elem_of_nil in Hin.
  - apply elem_of_cons in Hin as [->|Hin].
    + destruct l as [|z l]; [apply occurs_in_refl|].
      change (occurs_in y (y +:+ sep +:+ join sep (z :: l))).
      apply occurs_in_app_l, occurs_in_refl.
    + destruct l as [|z l]; [by apply elem_of_nil in Hin|].
      change (occurs_in x (y +:+ sep +:+ join sep (z :: l))).
      by apply occurs_in_app_r, occurs_in_app_r, IH.
Qed.

(** ** The dispatcher (src/index.ts) *)
Section Dispatcher.
Import Types Index.

Variable JSON_stringify : JsonValue -> string.
Variable client : Utils.SelfhostedSupabaseClient.
Variable workspace : string.
Variable availableTools : gmap string AppTool.
Variable enabledToolNames : option (gset string).

#[local] Abbreviation registered := (registeredTools availableTools enabledToolNames).
#[local] Abbreviation call :=
  (callTool JSON_stringify client workspace availableTools enabledToolNames).
#[local] Abbreviation run_registered := (run_tool JSON_stringify client workspace).

Lemma registered_is_available (toolName : string) (tool : AppTool) :
  registered !! toolName = Some tool -> availableTools !! toolName = Some tool.
Proof.
  unfold registeredTools. destruct enabledToolNames as [names|]; [|done].
  intros H. by apply map_lookup_filter_Some in H as [? _].
Qed.

Lemma registered_lookup (toolName : string) :
  registered !! toolName =
    match enabledToolNames with
    | Some names => if decide (toolName ∈ names) then availableTools !! toolName else None
    | None => availableTools !! toolName
    end.
Proof.
  unfold registeredTools. destruct enabledToolNames as [names|]; [|done].
  destruct (decide (toolName ∈ names)) as [Hin|Hnin].
  - destruct (availableTools !! toolName) as [t|] eqn:Ht.
    + by apply map_lookup_filter_Some.
    + apply map_lookup_filter_None. left. done.
  - apply map_lookup_filter_None. right. intros t _. done.
Qed.

Lemma disabled_not_unknown (toolName : string) :
  disabled_message toolName <> unknown_message toolName.
Proof. unfold disabled_message, unknown_message. cbn. discriminate. Qed.

Lemma trace_run_tool_execute_free (tool : AppTool) u toolName args issues :
  inputSchema tool args = ZodError issues ->
  run_registered tool u toolName args =
    ([SchemaParse toolName args;
      ConsoleErrorWith ("Error executing tool " +:+ toolName +:+ ":") (ThrownZodError issues)],
     ToolResult (error_text toolName (ThrownZodError issues)) true).
Proof. intros H. unfold run_tool. rewrite H. reflexivity. Qed.

(** C5.  A call that names a tool missing from the effective catalog stops
    at once, before the privilege check, validation and execution (its trace
    is empty): with the "available but not enabled" error exactly when the
    name is in the full catalog, and with the "Unknown tool" error exactly
    when it is in neither; the two messages always differ. *)
Theorem callTool_unregistered
    (userContext : option UserContext) (toolName : string) (arguments : option JsonValue) :
  registered !! toolName = None ->
  trace_of (call userContext toolName arguments) = []
  ∧ (value_of (call userContext toolName arguments)
       = McpError MethodNotFound (disabled_message toolName)
     <-> is_Some (availableTools !! toolName))
  ∧ (value_of (call userContext toolName arguments)
       = McpError MethodNotFound (unknown_message toolName)
     <-> availableTools !! toolName = None)
  ∧ disabled_message toolName <> unknown_message toolName.
Proof.
  intros Hreg. unfold callTool. rewrite Hreg.
  pose proof (disabled_not_unknown toolName) as Hne.
  case_bool_decide as Hav; cbn; split_and!; try done.
  - split; [intros [=]; congruence | intros Hn; rewrite Hn in Hav; by destruct Hav].
  - split; [intros _; by apply eq_None_not_Some | done].
Qed.

(** C1.  When the caller has an identity, the named tool is registered with
    level [privileged] and the caller's role does not include that level, the
    handler logs one audit line and throws the access-denied error, whose
    message names the required level and the caller's role; neither
    validation nor the tool body is reached.  Without an identity the same
    call goes straight to validation and execution. *)
Theorem callTool_privileged_denied
    (u : UserContext) (tool : AppTool) (toolName : string) (arguments : option JsonValue) :
  registered !! toolName = Some tool ->
  privilegeLevel tool = Some privileged ->
  canAccessTool (role u) privileged = false ->
  call (Some u) toolName arguments
    = ([ConsoleError (audit_line u toolName privileged)],
       McpError InvalidRequest (denied_message u toolName privileged))
  ∧ occurs_in ("requires '" +:+ show_level privileged +:+ "' privilege")
              (denied_message u toolName privileged)
  ∧ occurs_in ("Your role '" +:+ role u +:+ "'") (denied_message u toolName privileged)
  ∧ List.filter is_execute (trace_of (call (Some u) toolName arguments)) = []
  ∧ List.filter is_schema_parse (trace_of (call (Some u) toolName arguments)) = []
  ∧ call None toolName arguments = run_registered tool None toolName arguments.
Proof.
  intros Hreg Hlvl Hdeny.
  assert (Hcall : call (Some u) toolName arguments
    = ([ConsoleError (audit_line u toolName privileged)],
       McpError InvalidRequest (denied_message u toolName privileged))).
  { unfold callTool. rewrite Hreg, Hlvl. cbn [default from_option id].
    rewrite Hdeny. reflexivity. }
  split_and!.
  - exact Hcall.
  - unfold denied_message.
    exists ("Access denied: Tool '" +:+ toolName +:+ "' "),
           (". Your role '" +:+ role u +:+ "' does not have sufficient permissions.").
    rewrite !string_app_assoc. reflexivity.
  - unfold denied_message.
    exists ("Access denied: Tool '" +:+ toolName +:+ "' requires '"
            +:+ show_level privileged +:+ "' privilege. "),
           " does not have sufficient permissions.".
    rewrite !string_app_assoc. reflexivity.
  - rewrite Hcall. reflexivity.
  - rewrite Hcall. reflexivity.
  - unfold callTool. rewrite Hreg. reflexivity.
Qed.

(** C10.  A registered tool whose descriptor has no [privilegeLevel] is
    checked as a [regular] tool: a caller whose role is [authenticated], or
    any role string outside the table, is not stopped by the privilege check
    and the call proceeds to validation and execution. *)
Theorem callTool_default_level_regular
    (u : UserContext) (tool : AppTool) (toolName : string) (arguments : option JsonValue) :
  registered !! toolName = Some tool ->
  privilegeLevel tool = None ->
  effective_role (role u) = "authenticated" ->
  canAccessTool (role u) (default regular (privilegeLevel tool)) = true
  ∧ call (Some u) toolName arguments = run_registered tool (Some u) toolName arguments.
Proof.
  intros Hreg Hlvl Hrole.
  assert (Hok : canAccessTool (role u) regular = true).
  { rewrite canAccessTool_eq.
    unfold effective_role in Hrole. case_bool_decide as Hin.
    - rewrite Hrole. reflexivity.
    - destruct (decide (role u = "service_role")); [reflexivity|].
      destruct (decide (role u = "anon")) as [Ha|]; [|reflexivity].
      exfalso. apply Hin. rewrite Ha. set_solver. }
  split.
  - rewrite Hlvl. exact Hok.
  - unfold callTool. rewrite Hreg, Hlvl. cbn [default from_option].
    rewrite Hok. reflexivity.
Qed.

(** C8.  When the raw arguments of a call to a registered tool fail the
    tool's input schema, the tool body is never invoked; and if the call is
    not stopped by the privilege check, the handler returns one in-band error
    whose text holds, for every issue reported by the schema, that issue's
    path and message. *)
Theorem callTool_validation_failure
    (userContext : option UserContext) (tool : AppTool) (toolName : string)
    (arguments : option JsonValue) (issues : list ZodIssue) :
  registered !! toolName = Some tool ->
  inputSchema tool arguments = ZodError issues ->
  List.filter is_execute (trace_of (call userContext toolName arguments)) = []
  ∧ (passes_authorization userContext tool = true ->
       value_of (call userContext toolName arguments)
         = ToolResult ("Error executing tool " +:+ toolName +:+ ": Input validation failed: "
                       +:+ join ", " (show_issue <$> issues)) true
       ∧ forall e, e ∈ issues ->
           occurs_in (join "." (show_segment <$> path e) +:+ ": " +:+ message e)
                     ("Error executing tool " +:+ toolName +:+ ": Input validation failed: "
                       +:+ join ", " (show_issue <$> issues))).
Proof.
  intros Hreg Hparse.
  pose proof (trace_run_tool_execute_free tool userContext toolName arguments issues Hparse)
    as Hrun.
  split.
  - unfold callTool. rewrite Hreg.
    destruct userContext as [u|]; [|by rewrite Hrun].
    destruct (canAccessTool (role u) (default regular (privilegeLevel tool)));
      cbn [negb]; [by rewrite Hrun | reflexivity].
  - intros Hauth. split.
    + unfold callTool. rewrite Hreg.
      destruct userContext as [u|]; cbn [passes_authorization] in Hauth.
      * rewrite Hauth. cbn [negb]. rewrite Hrun. reflexivity.
      * rewrite Hrun. reflexivity.
    + intros e He.
      do 3 apply occurs_in_app_r.
      apply occurs_in_join.
      change (show_issue e ∈ show_issue <$> issues).
      by apply list_elem_of_fmap_2.
Qed.
End Dispatcher.

(** ** The bearer-token middleware (src/server/auth-middleware.ts) *)
Section Auth.
Import Jsonwebtoken AuthMiddleware.

Variable decode : string -> option DecodedToken.

Lemma on_verify_error_subclass (e : Thrown) :
  instanceof (cls e) JsonWebTokenError = true ->
  on_verify_error e = tret (unauthorized ("Invalid token: " +:+ Jsonwebtoken.message e)).
Proof. intros H. unfold on_verify_error. by rewrite H. Qed.

Lemma on_verify_error_status (e : Thrown) :
  exists status error message,
    value_of (on_verify_error e) = Respond status error message
    /\ (status = 401 \/ status = 500)
    /\ message <> "Token has expired".
Proof.
  unfold on_verify_error. destruct e as [[] msg]; cbn.
  - exists 500, "Internal Server Error", "Failed to verify authentication token".
    split_and!; [done | by right | done].
  - exists 401, "Unauthorized", ("Invalid token: " +:+ msg). split_and!; [done | by left | done].
  - exists 401, "Unauthorized", ("Invalid token: " +:+ msg). split_and!; [done | by left | done].
  - exists 401, "Unauthorized", ("Invalid token: " +:+ msg). split_and!; [done | by left | done].
Qed.

Lemma createAuthMiddleware_cases (secret : string) (authorization : option string) (nowMs : Z) :
  (exists user, value_of (createAuthMiddleware decode secret authorization nowMs) = Next user)
  \/ (exists status error message,
        value_of (createAuthMiddleware decode secret authorization nowMs)
          = Respond status error message
        /\ (status = 401 \/ status = 500)
        /\ message <> "Token has expired").
Proof.
  unfold createAuthMiddleware.
  destruct (truthy authorization) as [authHeader|].
  2:{ right. exists 401, "Unauthorized", "Missing Authorization header".
      split_and!; [done | by left | done]. }
  destruct (startsWith authHeader "Bearer "); cbn [negb].
  2:{ right. eexists 401, "Unauthorized", _. split_and!; [done | by left | done]. }
  destruct (decide (slice_from 7 authHeader = EmptyString)).
  { right. eexists 401, "Unauthorized", _. split_and!; [done | by left | done]. }
  destruct (verify decode (slice_from 7 authHeader) secret (nowMs / 1000)) as [p|e].
  - unfold on_decoded. destruct (truthy (sub p)).
    + left. eexists. rewrite value_bind. reflexivity.
    + right. eexists 401, "Unauthorized", _. split_and!; [done | by left | done].
  - right. apply on_verify_error_status.
Qed.

Lemma truthy_bearer (token : string) :
  truthy (Some ("Bearer " +:+ token)) = Some ("Bearer " +:+ token).
Proof. unfold truthy. destruct (decide _) as [H|]; [discriminate H | reflexivity]. Qed.

Lemma startsWith_bearer (token : string) : startsWith ("Bearer " +:+ token) "Bearer " = true.
Proof. unfold startsWith. cbv [String.append]. cbn. by destruct token. Qed.

Lemma slice_bearer (token : string) : slice_from 7 ("Bearer " +:+ token) = token.
Proof. reflexivity. Qed.

(** A token signed with another secret is answered 401 "invalid signature",
    whatever its claims. *)
Lemma wrong_secret_rejected (secret token : string) (t : DecodedToken) (nowMs : Z) :
  token <> EmptyString ->
  decode token = Some t ->
  alg t = "HS256" ->
  signature_verifies t secret = false ->
  createAuthMiddleware decode secret (Some ("Bearer " +:+ token)) nowMs
    = tret (unauthorized "Invalid token: invalid signature").
Proof.
  intros Hne Hdec Halg Hsig. unfold createAuthMiddleware, verify.
  rewrite truthy_bearer, startsWith_bearer, slice_bearer. cbn [negb].
  destruct (decide (token = EmptyString)); [done|].
  rewrite Hdec, Halg, Hsig. reflexivity.
Qed.

(** A token whose signature verifies and whose [exp] has passed leaves the
    middleware through the [JsonWebTokenError] branch. *)
Lemma expired_token_takes_invalid_token_branch (secret token : string) (t : DecodedToken)
    (expiry nowMs : Z) :
  token <> EmptyString ->
  decode token = Some t ->
  alg t = "HS256" ->
  signature_verifies t secret = true ->
  nbf (payload t) = None ->
  Jsonwebtoken.exp (payload t) = Some expiry ->
  expiry <= nowMs / 1000 ->
  createAuthMiddleware decode secret (Some ("Bearer " +:+ token)) nowMs
    = tret (unauthorized "Invalid token: jwt expired").
Proof.
  intros Hne Hdec Halg Hsig Hnbf Hexp Hnow. unfold createAuthMiddleware, verify.
  rewrite truthy_bearer, startsWith_bearer, slice_bearer. cbn [negb].
  destruct (decide (token = EmptyString)); [done|].
  rewrite Hdec, Halg, Hsig, Hnbf, Hexp. cbn.
  rewrite (bool_decide_eq_true_2 ("HS256" ∈ ["HS256"])) by set_solver.
  rewrite (bool_decide_eq_true_2 (nowMs / 1000 >= expiry)) by lia.
  reflexivity.
Qed.
End Auth.

(** ** The HTTP front-end (src/server/http-server.ts) *)
Section Http.
Import HttpServer.

Variable decode : string -> option Jsonwebtoken.DecodedToken.
Variable options : HttpMcpServerOptions.

Lemma ceil_div_le (a b c : Z) : 0 < c -> a <= b -> ceil_div a c <= ceil_div b c.
Proof.
  intros Hc Hab. unfold ceil_div.
  assert ((- b) / c <= (- a) / c) by (apply Z.div_le_mono; lia). lia.
Qed.

Lemma checkRateLimit_new (clientKey : string) (now : Z) (m : gmap string RateRecord) :
  no_live_record clientKey now m ->
  checkRateLimit options clientKey now m =
    (<[clientKey := {| count := 1; resetTime := now + windowMs options |}]> m,
     {| allowed := true; remaining := maxRequests options - 1;
        info_resetTime := now + windowMs options; limit := maxRequests options |}).
Proof.
  unfold no_live_record, checkRateLimit. intros H.
  destruct (m !! clientKey) as [record|]; [|reflexivity].
  by rewrite bool_decide_eq_true_2.
Qed.

Lemma checkRateLimit_live (clientKey : string) (now : Z) (m : gmap string RateRecord)
    (record : RateRecord) :
  m !! clientKey = Some record ->
  now < resetTime record ->
  checkRateLimit options clientKey now m =
    if bool_decide (count record >= maxRequests options) then
      (m, {| allowed := false; remaining := 0;
             info_resetTime := resetTime record; limit := maxRequests options |})
    else
      (<[clientKey := {| count := count record + 1; resetTime := resetTime record |}]> m,
       {| allowed := true; remaining := maxRequests options - (count record + 1);
          info_resetTime := resetTime record; limit := maxRequests options |}).
Proof.
  intros Hm Hnow. unfold checkRateLimit. rewrite Hm.
  rewrite bool_decide_eq_false_2 by lia. reflexivity.
Qed.

Lemma checkRateLimit_other (k k' : string) (now : Z) (m : gmap string RateRecord) :
  k <> k' -> (checkRateLimit options k' now m).1 !! k = m !! k.
Proof.
  intros Hne. unfold checkRateLimit.
  destruct (m !! k') as [record|]; cbn.
  - destruct (bool_decide (now >= resetTime record)); cbn.
    + by rewrite lookup_insert_ne.
    + destruct (bool_decide (count record >= _)); cbn; [done|].
      by rewrite lookup_insert_ne.
  - by rewrite lookup_insert_ne.
Qed.

Lemma cleanup_value (now : Z) (m : gmap string RateRecord) :
  value_of (cleanupExpiredRateLimitEntries now m)
    = filter (λ kv : string * RateRecord, ¬ (now >= resetTime kv.2)) m.
Proof.
  unfold cleanupExpiredRateLimitEntries. rewrite value_bind. reflexivity.
Qed.

Lemma cleanup_keeps_live (now : Z) (m : gmap string RateRecord) (k : string) (record : RateRecord) :
  m !! k = Some record ->
  now < resetTime record ->
  value_of (cleanupExpiredRateLimitEntries now m) !! k = Some record.
Proof.
  intros Hm Hnow. rewrite cleanup_value.
  apply map_lookup_filter_Some. split; [done|]. cbn. lia.
Qed.

Lemma corsStage_not_429 (req : Request) (hs : Headers) (reply : Reply) :
  corsStage options req = Done hs reply -> is_429 reply = false /\ reaches_mcp reply = false.
Proof.
  unfold corsStage.
  destruct (isOriginAllowed options (origin req)); cbn [negb];
    destruct (decide (method req = "OPTIONS")); intros [= <- <-] || intros [=]; done.
Qed.

Lemma routes_not_429 (req : Request) (clk : Clock) :
  is_429 (value_of (routes decode options req clk)) = false.
Proof.
  unfold routes. case_decide; [reflexivity|].
  rewrite value_bind.
  destruct (mounted_at_mcp (path req)).
  - rewrite value_bind.
    destruct (createAuthMiddleware_cases decode (jwtSecret options) (authorization req)
                (t_verify clk)) as [[user ->] | (st & e & msg & -> & Hst & _)]; cbn.
    + repeat case_decide; reflexivity.
    + destruct Hst as [-> | ->]; reflexivity.
  - cbn. repeat case_decide; reflexivity.
Qed.

(** A request is handed to an MCP session only through [POST /mcp], behind
    the token middleware: the session always gets an identity. *)
Lemma routes_session_has_identity (req : Request) (clk : Clock) (uc : option Types.UserContext) :
  value_of (routes decode options req clk) = HandedToMcp uc -> is_Some uc.
Proof.
  unfold routes. case_decide; [discriminate|].
  rewrite value_bind.
  destruct (mounted_at_mcp (path req)) eqn:Hmount.
  - rewrite value_bind.
    destruct (createAuthMiddleware_cases decode (jwtSecret options) (authorization req)
                (t_verify clk)) as [[user ->] | (st & e & msg & -> & _ & _)]; cbn.
    + repeat case_decide; intros [= <-] || intros [=]. by eexists.
    + discriminate.
  - cbn. destruct (decide (path req = "/mcp")) as [Hp|]; [|discriminate].
    rewrite Hp in Hmount. discriminate.
Qed.

Lemma handleRequest_state (req : Request) (clk : Clock) (m : gmap string RateRecord) :
  (handleRequest decode options req clk m).1 = (rateLimitStage options req clk m).2.
Proof.
  unfold handleRequest. destruct (rateLimitStage options req clk m) as [[hs reply|hs []] m'];
    [reflexivity|].
  destruct (corsStage options req); reflexivity.
Qed.

Lemma handleRequest_reply_done (req : Request) (clk : Clock) (m m' : gmap string RateRecord)
    (hs : Headers) (reply : Reply) :
  rateLimitStage options req clk m = (Done hs reply, m') ->
  snd (value_of (handleRequest decode options req clk m).2) = reply.
Proof. intros H. unfold handleRequest. rewrite H. reflexivity. Qed.

Lemma handleRequest_reply_continue (req : Request) (clk : Clock) (m m' : gmap string RateRecord)
    (hs : Headers) :
  rateLimitStage options req clk m = (Continue hs tt, m') ->
  is_429 (snd (value_of (handleRequest decode options req clk m).2)) = false.
Proof.
  intros H. unfold handleRequest. rewrite H.
  destruct (corsStage options req) as [hs' reply|hs' []] eqn:Hc.
  - cbn. by apply corsStage_not_429 in Hc as [? _].
  - cbn [snd]. rewrite value_bind. cbn. apply routes_not_429.
Qed.

Lemma counted_for_spec (k : string) (req : Request) (clk : Clock) :
  counted_for k (Arrives req clk) = true <-> path req <> "/health" /\ getClientKey req = k.
Proof. unfold counted_for. by rewrite bool_decide_eq_true. Qed.

Lemma stage_new (k : string) (req : Request) (clk : Clock) (m : gmap string RateRecord) :
  counted_for k (Arrives req clk) = true ->
  no_live_record k (t_check clk) m ->
  exists hs, rateLimitStage options req clk m =
    (Continue hs tt,
     <[k := {| count := 1; resetTime := t_check clk + windowMs options |}]> m).
Proof.
  intros [Hp <-]%counted_for_spec Hnew. unfold rateLimitStage.
  destruct (decide (path req = "/health")); [done|].
  rewrite checkRateLimit_new by done. cbn. eexists. reflexivity.
Qed.

Lemma stage_admit (k : string) (req : Request) (clk : Clock) (m : gmap string RateRecord)
    (record : RateRecord) :
  counted_for k (Arrives req clk) = true ->
  m !! k = Some record ->
  t_check clk < resetTime record ->
  count record < maxRequests options ->
  exists hs, rateLimitStage options req clk m =
    (Continue hs tt,
     <[k := {| count := count record + 1; resetTime := resetTime record |}]> m).
Proof.
  intros [Hp <-]%counted_for_spec Hm Ht Hc. unfold rateLimitStage.
  destruct (decide (path req = "/health")); [done|].
  rewrite (checkRateLimit_live _ _ _ record) by done.
  rewrite bool_decide_eq_false_2 by lia. cbn. eexists. reflexivity.
Qed.

Lemma stage_reject (k : string) (req : Request) (clk : Clock) (m : gmap string RateRecord)
    (record : RateRecord) :
  counted_for k (Arrives req clk) = true ->
  m !! k = Some record ->
  t_check clk < resetTime record ->
  maxRequests options <= count record ->
  exists hs, rateLimitStage options req clk m =
    (Done hs (Sent 429 (Some (too_many_requests_body
                (Z.max 1 (ceil_div (resetTime record - t_retry clk) 1000))))),
     m).
Proof.
  intros [Hp <-]%counted_for_spec Hm Ht Hc. unfold rateLimitStage.
  destruct (decide (path req = "/health")); [done|].
  rewrite (checkRateLimit_live _ _ _ record) by done.
  rewrite bool_decide_eq_true_2 by lia. cbn. eexists. reflexivity.
Qed.

Lemma step_uncounted (k : string) (e : Event) (m : gmap string RateRecord)
    (record : RateRecord) (start : Z) :
  counted_for k e = false ->
  m !! k = Some record ->
  in_window start (resetTime record) e ->
  (step decode options m e).1 !! k = Some record.
Proof.
  intros Hc Hm Hw. destruct e as [req clk|now]; cbn in *.
  - destruct (handleRequest decode options req clk m) as [m' out] eqn:Hh. cbn.
    assert (m' = (rateLimitStage options req clk m).2) as ->.
    { by rewrite <- handleRequest_state, Hh. }
    unfold rateLimitStage.
    destruct (decide (path req = "/health")); [done|].
    apply bool_decide_eq_false in Hc.
    assert (k <> getClientKey req) as Hne by (intros ->; apply Hc; done).
    pose proof (checkRateLimit_other k (getClientKey req) (t_check clk) m Hne) as Ho.
    destruct (checkRateLimit options (getClientKey req) (t_check clk) m) as [m'' info].
    cbn in Ho. destruct (allowed info); cbn; by rewrite Ho.
  - apply cleanup_keeps_live; [done | lia].
Qed.

Lemma run_cons (m : gmap string RateRecord) (e : Event) (es : list Event) :
  (run decode options m (e :: es)).2
    = (e, (step decode options m e).2) :: (run decode options (step decode options m e).1 es).2.
Proof.
  cbn [run]. destruct (step decode options m e) as [m' r]. cbn [fst snd].
  destruct (run decode options m' es) as [final rs]. reflexivity.
Qed.

Lemma replies_for_length (k : string) (m : gmap string RateRecord) (es : list Event) :
  length (replies_for k (run decode options m es).2) = length (List.filter (counted_for k) es).
Proof.
  revert m. induction es as [|e es IH]; intros m; [reflexivity|].
  rewrite run_cons. unfold replies_for. cbn [omap list_omap List.filter].
  destruct (counted_for k e) eqn:Hc.
  - destruct e as [req clk|now]; [|done]. cbn [step].
    destruct (handleRequest decode options req clk m) as [m' out]. cbn.
    f_equal. apply IH.
  - apply IH.
Qed.

(** Inside a window whose record is live, the requests counted against the
    key are admitted while the count is below the maximum and answered 429
    from then on. *)
Lemma run_in_window (k : string) (es : list Event) :
  0 < windowMs options ->
  forall (m : gmap string RateRecord) (record : RateRecord),
  m !! k = Some record ->
  Forall (in_window (resetTime record - windowMs options) (resetTime record)) es ->
  forall (i : nat) (reply : Reply),
  replies_for k (run decode options m es).2 !! i = Some reply ->
  (count record + Z.of_nat i < maxRequests options -> is_429 reply = false)
  /\ (maxRequests options <= count record + Z.of_nat i ->
      exists r, reply = Sent 429 (Some (too_many_requests_body r))
                /\ 1 <= r <= Z.max 1 (ceil_div (windowMs options) 1000)).
Proof.
  intros HW. induction es as [|e es IH]; intros m record Hm Hall i reply Hi.
  { cbn in Hi. by rewrite lookup_nil in Hi. }
  apply Forall_cons in Hall as [He Hall].
  rewrite run_cons in Hi. unfold replies_for in Hi. cbn [omap list_omap] in Hi.
  destruct (counted_for k e) eqn:Hc.
  2:{ eapply IH; [|exact Hall|exact Hi]. by eapply step_uncounted. }
  destruct e as [req clk|now]; [|done]. cbn in He. destruct He as [[Hlo Hhi] Hretry].
  destruct (decide (count record < maxRequests options)) as [Hlt|Hge].
  - destruct (stage_admit k req clk m record Hc Hm Hhi Hlt) as [hs Hs].
    pose proof (handleRequest_reply_continue req clk m _ hs Hs) as Hrep.
    pose proof (handleRequest_state req clk m) as Hst. rewrite Hs in Hst. cbn in Hst.
    cbn [step] in Hi.
    destruct (handleRequest decode options req clk m) as [m' out]. cbn in Hst, Hrep, Hi. subst m'.
    destruct i as [|j]; cbn in Hi.
    + injection Hi as <-. split; [done | lia].
    + set (record' := {| count := count record + 1; resetTime := resetTime record |}) in *.
      destruct (IH (<[k := record']> m) record' (lookup_insert_eq _ _ _) Hall j reply Hi)
        as [IH1 IH2].
      split; intros ?; [apply IH1 | apply IH2]; cbn; lia.
  - destruct (stage_reject k req clk m record Hc Hm Hhi ltac:(lia)) as [hs Hs].
    pose proof (handleRequest_reply_done req clk m _ hs _ Hs) as Hrep.
    pose proof (handleRequest_state req clk m) as Hst. rewrite Hs in Hst. cbn in Hst.
    cbn [step] in Hi.
    destruct (handleRequest decode options req clk m) as [m' out]. cbn in Hst, Hrep, Hi. subst m'.
    destruct i as [|j]; cbn in Hi.
    + injection Hi as <-. split; [lia|]. intros _. eexists. split; [exact Hrep|].
      split; [lia|].
      assert (ceil_div (resetTime record - t_retry clk) 1000 <= ceil_div (windowMs options) 1000)
        by (apply ceil_div_le; lia).
      lia.
    + destruct (IH m record Hm Hall j reply Hi) as [IH1 IH2].
      split; intros ?; [lia | apply IH2; lia].
Qed.

(** C7, amended.  Let a request counted against a client key open a new
    window (no live record), with maximum N >= 1 and window length W > 0
    milliseconds, and let every later event fall inside that window.  Every
    request counted against the key is answered; the first N of them pass the
    rate limiter; every later one is answered 429 with a retry hint of at
    least 1 second and at most W rounded up to whole seconds, and is not
    handed to the MCP session. *)
Theorem rate_limit_window (k : string) (req0 : Request) (clk0 : Clock) (rest : list Event)
    (m : gmap string RateRecord) :
  1 <= maxRequests options ->
  0 < windowMs options ->
  counted_for k (Arrives req0 clk0) = true ->
  no_live_record k (t_check clk0) m ->
  Forall (in_window (t_check clk0) (t_check clk0 + windowMs options)) rest ->
  length (replies_for k (run decode options m (Arrives req0 clk0 :: rest)).2)
    = S (length (List.filter (counted_for k) rest))
  /\ forall (i : nat) (reply : Reply),
       replies_for k (run decode options m (Arrives req0 clk0 :: rest)).2 !! i = Some reply ->
       (Z.of_nat i < maxRequests options -> is_429 reply = false)
       /\ (maxRequests options <= Z.of_nat i ->
           exists r, reply = Sent 429 (Some (too_many_requests_body r))
                     /\ 1 <= r <= Z.max 1 (ceil_div (windowMs options) 1000)
                     /\ reaches_mcp reply = false).
Proof.
  intros HN HW Hc Hnew Hall. split.
  { rewrite replies_for_length. cbn [List.filter]. by rewrite Hc. }
  intros i reply Hi.
  rewrite run_cons in Hi. unfold replies_for in Hi. cbn [omap list_omap] in Hi.
  rewrite Hc in Hi.
  destruct (stage_new k req0 clk0 m Hc Hnew) as [hs Hs].
  pose proof (handleRequest_reply_continue req0 clk0 m _ hs Hs) as Hrep.
  pose proof (handleRequest_state req0 clk0 m) as Hst. rewrite Hs in Hst. cbn in Hst.
  cbn [step] in Hi.
  destruct (handleRequest decode options req0 clk0 m) as [m' out]. cbn in Hst, Hrep, Hi. subst m'.
  destruct i as [|j]; cbn in Hi.
  - injection Hi as <-. split; [done | lia].
  - set (record := {| count := 1; resetTime := t_check clk0 + windowMs options |}) in *.
    assert (Hall' : Forall (in_window (resetTime record - windowMs options) (resetTime record)) rest).
    { cbn. by replace (t_check clk0 + windowMs options - windowMs options) with (t_check clk0) by lia. }
    destruct (run_in_window k rest HW (<[k := record]> m) record (lookup_insert_eq _ _ _)
                Hall' j reply Hi) as [H1 H2].
    split.
    + intros ?. apply H1. cbn. lia.
    + intros ?. destruct H2 as (r & -> & Hr); [cbn; lia|].
      exists r. split_and!; [done | lia | lia | done].
Qed.

End Http.

(** C7 as stated fails where the window is not a whole number of seconds:
    with a window of 1500 ms and a maximum of 1, the second request at the
    same instant is told to retry after 2 seconds, longer than the window. *)
Lemma rate_limit_retry_after_counterexample :
  HttpServer.replies_for "10.0.0.1"
    (HttpServer.run Fixtures.decode_fixture (Fixtures.http_options (Some 1500) (Some 1)) ∅
       [ HttpServer.Arrives (Fixtures.request "POST" "/mcp" None None) (Fixtures.at_ms 0);
         HttpServer.Arrives (Fixtures.request "POST" "/mcp" None None) (Fixtures.at_ms 0) ]).2 !! 1%nat
    = Some (HttpServer.Sent 429 (Some (HttpServer.too_many_requests_body 2)))
  /\ ~ (2 * 1000 <= HttpServer.windowMs (Fixtures.http_options (Some 1500) (Some 1))).
Proof. split; [vm_compute; reflexivity | vm_compute; intros H; apply H; reflexivity]. Qed.

Lemma rate_limit_window_witness :
  length (HttpServer.replies_for "10.0.0.1"
            (HttpServer.run Fixtures.decode_fixture (Fixtures.http_options None (Some 2)) ∅
               (HttpServer.Arrives (Fixtures.request "POST" "/mcp" None None) (Fixtures.at_ms 0)
                :: [ HttpServer.Sweep 500;
                     HttpServer.Arrives (Fixtures.request "POST" "/mcp" None None) (Fixtures.at_ms 1000);
                     HttpServer.Arrives (Fixtures.request "POST" "/mcp" None None) (Fixtures.at_ms 2000) ])).2)
    = 3%nat
  /\ exists r, HttpServer.Sent 429 (Some (HttpServer.too_many_requests_body 58))
               = HttpServer.Sent 429 (Some (HttpServer.too_many_requests_body r))
               /\ 1 <= r <= 60
               /\ HttpServer.reaches_mcp
                    (HttpServer.Sent 429 (Some (HttpServer.too_many_requests_body 58))) = false.
Proof.
  destruct (rate_limit_window Fixtures.decode_fixture (Fixtures.http_options None (Some 2))
              "10.0.0.1" (Fixtures.request "POST" "/mcp" None None) (Fixtures.at_ms 0)
              [ HttpServer.Sweep 500;
                HttpServer.Arrives (Fixtures.request "POST" "/mcp" None None) (Fixtures.at_ms 1000);
                HttpServer.Arrives (Fixtures.request "POST" "/mcp" None None) (Fixtures.at_ms 2000) ]
              ∅) as [Hlen Hall].
  - cbn. lia.
  - cbn. lia.
  - reflexivity.
  - exact I.
  - repeat constructor; cbn; lia.
  - split; [exact Hlen|].
    apply (Hall 2%nat (HttpServer.Sent 429 (Some (HttpServer.too_many_requests_body 58)))).
    + vm_compute. reflexivity.
    + cbn. lia.
Defined.



(** The same client is answered 429 on [/mcp] at that moment. *)
Example exhausted_client_is_limited_on_mcp :
  snd (value_of (HttpServer.handleRequest Fixtures.decode_fixture (Fixtures.http_options None None)
                   (Fixtures.request "POST" "/mcp" None None) (Fixtures.at_ms 1000)
                   Fixtures.exhausted).2)
    = HttpServer.Sent 429 (Some (HttpServer.too_many_requests_body 59)).
Proof. vm_compute. reflexivity. Qed.

(** C4.  A token whose signature verifies under the configured secret and
    whose [exp] is in the past is answered 401 with the message
    "Invalid token: jwt expired": [TokenExpiredError] is a subclass of
    [JsonWebTokenError], so the first [instanceof] test of the [catch] block
    takes it, and no request at all is answered "Token has expired".  A token
    signed with another secret is answered 401 "Invalid token: invalid
    signature". *)
Theorem expired_token_reported_as_invalid :
  AuthMiddleware.createAuthMiddleware Fixtures.decode_fixture Fixtures.test_secret
      (Some "Bearer expired-token") 2000000
    = ([], AuthMiddleware.Respond 401 "Unauthorized" "Invalid token: jwt expired")
  /\ (forall decode secret authorization nowMs,
        value_of (AuthMiddleware.createAuthMiddleware decode secret authorization nowMs)
          <> AuthMiddleware.Respond 401 "Unauthorized" "Token has expired")
  /\ AuthMiddleware.createAuthMiddleware Fixtures.decode_fixture Fixtures.test_secret
       (Some "Bearer forged-token") 2000000
     = ([], AuthMiddleware.Respond 401 "Unauthorized" "Invalid token: invalid signature").
Proof.
  split_and!.
  - vm_compute. reflexivity.
  - intros decode secret authorization nowMs.
    destruct (createAuthMiddleware_cases decode secret authorization nowMs)
      as [[user ->] | (st & e & msg & -> & _ & Hmsg)]; [discriminate|].
    intros [= _ _ ->]. by apply Hmsg.
  - vm_compute. reflexivity.
Qed.

(** A token that is still valid passes, for comparison. *)
Example valid_token_accepted :
  value_of (AuthMiddleware.createAuthMiddleware Fixtures.decode_fixture Fixtures.test_secret
              (Some "Bearer valid-token") 2000000)
    = AuthMiddleware.Next {| AuthMiddleware.userId := "user-123"; AuthMiddleware.email := None;
                             AuthMiddleware.role := "authenticated"; AuthMiddleware.exp := 10000 |}.
Proof. vm_compute. reflexivity. Qed.

(** ** The dispatcher on a two-tool catalog *)

Lemma callTool_unregistered_witness :
  trace_of (Index.callTool Fixtures.stringify_stub Fixtures.failing_pg_client "/workspace"
              Fixtures.two_tools Fixtures.only_vector_indexes
              (Some Fixtures.alice) "execute_sql" None) = []
  /\ value_of (Index.callTool Fixtures.stringify_stub Fixtures.failing_pg_client "/workspace"
                 Fixtures.two_tools Fixtures.only_vector_indexes
                 (Some Fixtures.alice) "execute_sql" None)
     = Index.McpError Index.MethodNotFound (Index.disabled_message "execute_sql").
Proof.
  destruct (callTool_unregistered Fixtures.stringify_stub Fixtures.failing_pg_client "/workspace"
              Fixtures.two_tools Fixtures.only_vector_indexes
              (Some Fixtures.alice) "execute_sql" None) as (Ht & Hd & _ & _).
  - vm_compute. reflexivity.
  - split; [exact Ht|]. apply Hd. vm_compute. eexists. reflexivity.
Defined.

Lemma callTool_privileged_denied_witness :
  Index.callTool Fixtures.stringify_stub Fixtures.failing_pg_client "/workspace"
    Fixtures.two_tools None (Some Fixtures.alice) "execute_sql"
    (Some (JObj [("sql", JStr "DROP TABLE users")]))
  = ([Index.ConsoleError
        "[SECURITY] Access denied: User alice@example.com (role: authenticated) attempted to access execute_sql (requires: privileged)"],
     Index.McpError Index.InvalidRequest
       "Access denied: Tool 'execute_sql' requires 'privileged' privilege. Your role 'authenticated' does not have sufficient permissions.").
Proof.
  apply (callTool_privileged_denied Fixtures.stringify_stub Fixtures.failing_pg_client "/workspace"
           Fixtures.two_tools None Fixtures.alice Fixtures.executeSqlTool "execute_sql"
           (Some (JObj [("sql", JStr "DROP TABLE users")]))); reflexivity.
Defined.

Lemma callTool_default_level_regular_witness :
  Index.callTool Fixtures.stringify_stub Fixtures.failing_pg_client "/workspace"
    Fixtures.two_tools None (Some Fixtures.admin) "list_vector_indexes" (Some (JObj []))
  = Index.run_tool Fixtures.stringify_stub Fixtures.failing_pg_client "/workspace"
      Fixtures.listVectorIndexesTool (Some Fixtures.admin) "list_vector_indexes" (Some (JObj [])).
Proof.
  apply (callTool_default_level_regular Fixtures.stringify_stub Fixtures.failing_pg_client
           "/workspace" Fixtures.two_tools None Fixtures.admin Fixtures.listVectorIndexesTool
           "list_vector_indexes" (Some (JObj []))); reflexivity.
Defined.

Lemma callTool_validation_failure_witness :
  value_of (Index.callTool Fixtures.stringify_stub Fixtures.failing_pg_client "/workspace"
              Fixtures.two_tools None None "execute_sql" Fixtures.bad_sql_arguments)
  = Index.ToolResult
      "Error executing tool execute_sql: Input validation failed: sql: Expected string, received number, read_only: Expected boolean, received string"
      true.
Proof.
  apply (callTool_validation_failure Fixtures.stringify_stub Fixtures.failing_pg_client
           "/workspace" Fixtures.two_tools None None Fixtures.executeSqlTool "execute_sql"
           Fixtures.bad_sql_arguments
           [ {| Index.path := [Index.KeySegment "sql"];
                Index.message := "Expected string, received number" |};
             {| Index.path := [Index.KeySegment "read_only"];
                Index.message := "Expected boolean, received string" |} ]); reflexivity.
Defined.

(** In stdio mode the privileged tool runs, and the database error it meets
    comes back as an in-band error. *)
Example stdio_runs_privileged_tool :
  value_of (Index.callTool Fixtures.stringify_stub Fixtures.failing_pg_client "/workspace"
              Fixtures.two_tools None None "execute_sql"
              (Some (JObj [("sql", JStr "SELECT * FROM t")])))
  = Index.ToolResult "Error executing tool execute_sql: SQL Error (42P01): relation does not exist" true.
Proof. vm_compute. reflexivity. Qed.


(** * Further properties of the code *)

(** ** The rate limiter *)
Section RateLimitStatus.
Import HttpServer RateLimitInvariant.

Variable options : HttpMcpServerOptions.

Lemma sweep_value (now : Z) (m : gmap string RateRecord) :
  value_of (cleanupExpiredRateLimitEntries now m)
    = filter (λ kv : string * RateRecord, ¬ (now >= resetTime kv.2)) m.
Proof. unfold cleanupExpiredRateLimitEntries. rewrite value_bind. reflexivity. Qed.

Lemma checkRateLimit_depends_on_own_record (k : string) (now : Z)
    (m1 m2 : gmap string RateRecord) :
  m1 !! k = m2 !! k ->
  (checkRateLimit options k now m1).2 = (checkRateLimit options k now m2).2
  /\ (checkRateLimit options k now m1).1 !! k = (checkRateLimit options k now m2).1 !! k.
Proof.
  intros H. unfold checkRateLimit. rewrite <- H.
  destruct (m1 !! k) as [record|] eqn:Hk; cbn.
  - destruct (bool_decide (now >= resetTime record)); cbn.
    + by rewrite !lookup_insert_eq.
    + destruct (bool_decide (count record >= _)); cbn.
      * split; [done|]. by rewrite <- H, Hk.
      * by rewrite !lookup_insert_eq.
  - by rewrite !lookup_insert_eq.
Qed.

(** X1.  [checkRateLimit] for one client key reads and writes only that key's
    record: the records of all other keys are left as they were, and the
    returned status and the key's new record are the same in any two maps that
    agree on the key. *)
Theorem checkRateLimit_isolated (k k' : string) (now : Z) (m1 m2 : gmap string RateRecord) :
  (k <> k' -> (checkRateLimit options k' now m1).1 !! k = m1 !! k)
  /\ (m1 !! k = m2 !! k ->
      (checkRateLimit options k now m1).2 = (checkRateLimit options k now m2).2
      /\ (checkRateLimit options k now m1).1 !! k = (checkRateLimit options k now m2).1 !! k).
Proof.
  split.
  - apply checkRateLimit_other.
  - apply checkRateLimit_depends_on_own_record.
Qed.

Lemma checkRateLimit_bounded (k : string) (now : Z) (m : gmap string RateRecord) :
  counts_bounded options m -> counts_bounded options (checkRateLimit options k now m).1.
Proof.
  unfold counts_bounded. intros Hm. unfold checkRateLimit.
  destruct (m !! k) as [record|] eqn:Hk; cbn.
  - pose proof (map_Forall_lookup_1 _ _ _ _ Hm Hk) as Hr. cbn in Hr.
    destruct (bool_decide (now >= resetTime record)); cbn.
    + apply map_Forall_insert_2; [cbn; lia | done].
    + case_bool_decide as Hc; cbn; [done|].
      apply map_Forall_insert_2; [|done]. cbn. fold (maxRequests options) in Hc. lia.
  - apply map_Forall_insert_2; [cbn; lia | done].
Qed.

Lemma cleanup_bounded (now : Z) (m : gmap string RateRecord) :
  counts_bounded options m ->
  counts_bounded options (value_of (cleanupExpiredRateLimitEntries now m)).
Proof.
  unfold counts_bounded. intros Hm. rewrite sweep_value.
  intros k record [Hk _]%map_lookup_filter_Some. by eapply map_Forall_lookup_1 in Hm.
Qed.

(** X3.  With a maximum of at least 1, the status returned by
    [checkRateLimit] is consistent with the map: [remaining] is never negative
    and [limit] is the maximum; when the request is admitted the key's stored
    count plus [remaining] is the maximum and the stored reset time is the one
    returned; when it is rejected [remaining] is 0 and the map is unchanged. *)
Theorem checkRateLimit_status_consistent (k : string) (now : Z) (m : gmap string RateRecord) :
  1 <= maxRequests options ->
  0 <= remaining (checkRateLimit options k now m).2
  /\ limit (checkRateLimit options k now m).2 = maxRequests options
  /\ (if allowed (checkRateLimit options k now m).2 then
        exists record, (checkRateLimit options k now m).1 !! k = Some record
                       /\ count record + remaining (checkRateLimit options k now m).2
                          = maxRequests options
                       /\ resetTime record = info_resetTime (checkRateLimit options k now m).2
      else
        (checkRateLimit options k now m).1 = m
        /\ remaining (checkRateLimit options k now m).2 = 0).
Proof.
  intros HN. unfold checkRateLimit. fold (maxRequests options).
  destruct (m !! k) as [record|] eqn:Hk; cbn.
  - destruct (bool_decide (now >= resetTime record)); cbn.
    + split_and!; [lia | done |]. eexists. rewrite lookup_insert_eq. split_and!; [done | cbn; lia | done].
    + case_bool_decide as Hc; cbn.
      * split_and!; done.
      * split_and!; [lia | done |]. eexists. rewrite lookup_insert_eq.
        split_and!; [done | cbn; lia | done].
  - split_and!; [lia | done |]. eexists. rewrite lookup_insert_eq. split_and!; [done | cbn; lia | done].
Qed.

(** X5.  The periodic sweep is invisible to the rate limiter: for a request at
    any time not before the sweep, the status returned and the key's record
    afterwards are the same whether or not the sweep has run. *)
Theorem sweep_does_not_change_decisions (k : string) (now t : Z) (m : gmap string RateRecord) :
  now <= t ->
  (checkRateLimit options k t (value_of (cleanupExpiredRateLimitEntries now m))).2
    = (checkRateLimit options k t m).2
  /\ (checkRateLimit options k t (value_of (cleanupExpiredRateLimitEntries now m))).1 !! k
     = (checkRateLimit options k t m).1 !! k.
Proof.
  intros Ht. rewrite sweep_value.
  set (kept := filter _ m).
  destruct (m !! k) as [record|] eqn:Hk.
  - destruct (decide (now >= resetTime record)) as [Hexp|Hlive].
    + assert (Hnone : kept !! k = None).
      { apply map_lookup_filter_None. right. intros r Hr. cbn. rewrite Hk in Hr.
        injection Hr as <-. tauto. }
      rewrite (checkRateLimit_new options k t kept) by (unfold no_live_record; by rewrite Hnone).
      rewrite (checkRateLimit_new options k t m) by (unfold no_live_record; rewrite Hk; lia).
      cbn. by rewrite !lookup_insert_eq.
    + apply checkRateLimit_depends_on_own_record. rewrite Hk.
      apply map_lookup_filter_Some. split; [done | cbn; lia].
  - apply checkRateLimit_depends_on_own_record. rewrite Hk.
    apply map_lookup_filter_None. by left.
Qed.

(** X6.  After a sweep at time [now] the map holds exactly the records that
    were live at [now], unchanged; a second sweep at the same time removes
    nothing and logs nothing. *)
Theorem sweep_removes_exactly_expired (now : Z) (m : gmap string RateRecord) (k : string) :
  value_of (cleanupExpiredRateLimitEntries now m) !! k
    = match m !! k with
      | Some record => if bool_decide (now >= resetTime record) then None else Some record
      | None => None
      end
  /\ cleanupExpiredRateLimitEntries now (value_of (cleanupExpiredRateLimitEntries now m))
     = ([], value_of (cleanupExpiredRateLimitEntries now m)).
Proof.
  split.
  - rewrite sweep_value. destruct (m !! k) as [record|] eqn:Hk.
    + case_bool_decide as Hexp.
      * apply map_lookup_filter_None. right. intros r Hr. rewrite Hk in Hr.
        injection Hr as <-. cbn. tauto.
      * apply map_lookup_filter_Some. split; [done | cbn; lia].
    + apply map_lookup_filter_None. by left.
  - rewrite sweep_value. unfold cleanupExpiredRateLimitEntries.
    rewrite map_filter_filter_l by done.
    rewrite bool_decide_eq_false_2 by lia. reflexivity.
Qed.
End RateLimitStatus.

Section RateLimiterRuns.
Import HttpServer RateLimitInvariant.

Variable decode : string -> option Jsonwebtoken.DecodedToken.
Variable options : HttpMcpServerOptions.

Lemma step_bounded (m : gmap string RateRecord) (e : Event) :
  counts_bounded options m -> counts_bounded options (step decode options m e).1.
Proof.
  intros Hm. destruct e as [req clk|now]; cbn.
  - destruct (handleRequest decode options req clk m) as [m' out] eqn:Hh. cbn.
    assert (m' = (rateLimitStage options req clk m).2) as ->.
    { by rewrite <- (handleRequest_state decode), Hh. }
    unfold rateLimitStage. destruct (decide (path req = "/health")); [done|].
    pose proof (checkRateLimit_bounded options (getClientKey req) (t_check clk) m Hm) as Hb.
    destruct (checkRateLimit options (getClientKey req) (t_check clk) m) as [m'' info].
    by destruct (allowed info).
  - by apply cleanup_bounded.
Qed.

Lemma run_state_cons (m : gmap string RateRecord) (e : Event) (es : list Event) :
  (run decode options m (e :: es)).1 = (run decode options (step decode options m e).1 es).1.
Proof.
  cbn [run]. destruct (step decode options m e) as [m' r]. cbn [fst snd].
  destruct (run decode options m' es) as [final rs]. reflexivity.
Qed.

(** X2.  Whatever requests arrive and whenever the sweep runs, every count in
    the rate limiter's map stays between 1 and the configured maximum (1 when
    the maximum is smaller): a client's count never passes the limit. *)
Theorem run_keeps_counts_bounded (m : gmap string RateRecord) (es : list Event) :
  counts_bounded options m -> counts_bounded options (run decode options m es).1.
Proof.
  revert m. induction es as [|e es IH]; intros m Hm; [exact Hm|].
  rewrite run_state_cons. apply IH. by apply step_bounded.
Qed.

Lemma run_exhausted_state (k : string) (record : RateRecord) (start : Z) (es : list Event) :
  maxRequests options <= count record ->
  forall m : gmap string RateRecord,
  m !! k = Some record ->
  Forall (in_window start (resetTime record)) es ->
  (run decode options m es).1 !! k = Some record.
Proof.
  intros Hfull. induction es as [|e es IH]; intros m Hm Hall; [exact Hm|].
  apply Forall_cons in Hall as [He Hall].
  rewrite run_state_cons. apply IH; [|done].
  destruct (counted_for k e) eqn:Hc.
  - destruct e as [req clk|now]; [|done]. cbn in He. destruct He as [[_ Hhi] _].
    destruct (stage_reject options k req clk m record Hc Hm Hhi Hfull) as [hs Hs].
    cbn [step]. pose proof (handleRequest_state decode options req clk m) as Hst.
    rewrite Hs in Hst. cbn in Hst.
    destruct (handleRequest decode options req clk m) as [m' out]. cbn in *. by subst.
  - by eapply step_uncounted.
Qed.

(** X4.  A client that has reached its limit stays where it is until the
    window ends: no event inside the window (its own rejected requests, other
    clients' requests, sweeps) changes its record, so rejected requests never
    extend the window; and its first request at or after the reset time is
    admitted. *)
Theorem exhausted_client_recovers_at_reset (k : string) (record : RateRecord) (start : Z)
    (es : list Event) (m : gmap string RateRecord) :
  maxRequests options <= count record ->
  m !! k = Some record ->
  Forall (in_window start (resetTime record)) es ->
  (run decode options m es).1 !! k = Some record
  /\ forall t, resetTime record <= t ->
       allowed (checkRateLimit options k t (run decode options m es).1).2 = true
       /\ (checkRateLimit options k t (run decode options m es).1).1 !! k
          = Some {| count := 1; resetTime := t + windowMs options |}.
Proof.
  intros Hfull Hm Hall.
  pose proof (run_exhausted_state k record start es Hfull m Hm Hall) as Hk.
  split; [exact Hk|]. intros t Ht.
  rewrite checkRateLimit_new.
  - cbn. by rewrite lookup_insert_eq.
  - unfold no_live_record. rewrite Hk. lia.
Qed.

End RateLimiterRuns.

(** ** Prefixes, suffixes and slices of strings *)

Lemma string_length_app (a b : string) :
  String.length (a +:+ b) = (String.length a + String.length b)%nat.
Proof.
  induction a as [|x a IH]; [reflexivity|].
  change (S (String.length (a +:+ b)) = S (String.length a + String.length b)). by rewrite IH.
Qed.

Lemma startsWith_iff (s p : string) :
  startsWith s p = true <-> exists rest, s = p +:+ rest.
Proof.
  unfold startsWith. revert s. induction p as [|x p IH]; intros s.
  - split; [intros _; by exists s | by destruct s].
  - destruct s as [|y s]; cbn.
    + split; [done | intros [rest Hr]; discriminate Hr].
    + destruct (ascii_dec x y) as [->|Hne].
      * rewrite IH. split; intros [rest Hr]; exists rest.
        -- by rewrite Hr.
        -- change (String y s = String y (p +:+ rest)) in Hr. by injection Hr.
      * split; [done|]. intros [rest Hr].
        change (String y s = String x (p +:+ rest)) in Hr. injection Hr as -> _. done.
Qed.

Lemma slice_from_app (pre p : string) : slice_from (String.length pre) (pre +:+ p) = p.
Proof. induction pre as [|x pre IH]; [by destruct p | exact IH]. Qed.

Lemma slice_from_split (n : nat) (s : string) :
  (n <= String.length s)%nat ->
  exists pre, s = pre +:+ slice_from n s /\ String.length pre = n.
Proof.
  revert s. induction n as [|n IH]; intros s Hn.
  - exists EmptyString. by destruct s.
  - destruct s as [|x s]; cbn in Hn; [lia|].
    destruct (IH s ltac:(lia)) as (pre & Hs & Hl).
    exists (String x pre). split; [|cbn; by rewrite Hl].
    change (String x s = String x (pre +:+ slice_from n s)). by rewrite <- Hs.
Qed.

Lemma endsWith_iff (s p : string) :
  endsWith s p = true <-> exists pre, s = pre +:+ p.
Proof.
  unfold endsWith. rewrite bool_decide_eq_true. split.
  - intros H.
    destruct (slice_from_split (String.length s - String.length p) s ltac:(lia))
      as (pre & Hs & _).
    exists pre. rewrite <- H. exact Hs.
  - intros [pre ->]. rewrite string_length_app.
    replace (String.length pre + String.length p - String.length p)%nat
      with (String.length pre) by lia.
    apply slice_from_app.
Qed.

Lemma substring_0_app (pre p : string) :
  String.substring 0 (String.length pre) (pre +:+ p) = pre.
Proof.
  induction pre as [|x pre IH]; [by destruct p|].
  change (String x (String.substring 0 (String.length pre) (pre +:+ p)) = String x pre).
  by rewrite IH.
Qed.

Lemma slice_drop_end_app (pre p : string) :
  slice_drop_end (String.length p) (pre +:+ p) = pre.
Proof.
  unfold slice_drop_end. rewrite string_length_app.
  replace (String.length pre + String.length p - String.length p)%nat
    with (String.length pre) by lia.
  apply substring_0_app.
Qed.

(** ** The origin check *)
Section Origins.
Import HttpServer RateLimitInvariant.

Variable options : HttpMcpServerOptions.

Lemma matches_wildcard_iff (o allowed : string) :
  matches_wildcard o allowed = true
  <-> exists base rest, allowed = base +:+ ":*" /\ o = base +:+ ":" +:+ rest.
Proof.
  unfold matches_wildcard. rewrite andb_true_iff, endsWith_iff. split.
  - intros [[base ->] Hstart].
    change 2%nat with (String.length ":*") in Hstart.
    rewrite (slice_drop_end_app base ":*") in Hstart.
    apply startsWith_iff in Hstart as [rest ->].
    exists base, rest. by rewrite string_app_assoc.
  - intros (base & rest & -> & ->). split; [by exists base|].
    change 2%nat with (String.length ":*").
    rewrite (slice_drop_end_app base ":*"). apply startsWith_iff.
    exists rest. by rewrite string_app_assoc.
Qed.

(** X7.  [isOriginAllowed] accepts exactly: a missing or empty origin; any
    origin when the list holds ["*"]; an origin that is in the list; and an
    origin of the form [base:rest] when the list holds the pattern [base:*]
    (whatever follows the colon). *)
Theorem isOriginAllowed_iff (origin : option string) :
  isOriginAllowed options origin = true
  <-> truthy origin = None
      \/ exists o, truthy origin = Some o
           /\ ("*" ∈ allowedOrigins options
               \/ o ∈ allowedOrigins options
               \/ exists base rest, base +:+ ":*" ∈ allowedOrigins options
                                    /\ o = base +:+ ":" +:+ rest).
Proof.
  unfold isOriginAllowed. fold (allowedOrigins options).
  destruct (truthy origin) as [o|]; [|split; [by left | done]].
  rewrite !orb_true_iff, !bool_decide_eq_true, existsb_exists.
  split.
  - intros H. right. exists o. split; [done|].
    destruct H as [[H|H]|(a & Ha & Hw)]; [by left | by right; left |].
    right; right. apply matches_wildcard_iff in Hw as (base & rest & -> & ->).
    exists base, rest. split; [by apply list_elem_of_In | done].
  - intros [H|(o' & [= <-] & H)]; [done|].
    destruct H as [H|[H|(base & rest & Hin & ->)]]; [by left; left | by left; right |].
    right. exists (base +:+ ":*"). split; [by apply list_elem_of_In|].
    apply matches_wildcard_iff. by exists base, rest.
Qed.
End Origins.

(** ** The middleware chain as a whole *)
Section Pipeline.
Import HttpServer RateLimitInvariant.

Variable decode : string -> option Jsonwebtoken.DecodedToken.
Variable options : HttpMcpServerOptions.

Ltac header_cases H :=
  repeat (apply elem_of_cons in H as [H|H]; [try discriminate H|]);
  try (by apply elem_of_nil in H).

Lemma rateLimitStage_done (req : Request) (clk : Clock) (m m' : gmap string RateRecord)
    (hs : Headers) (reply : Reply) :
  rateLimitStage options req clk m = (Done hs reply, m') ->
  is_429 reply = true /\ path req <> "/health"
  /\ forall v, ("Access-Control-Allow-Origin", v) ∉ hs.
Proof.
  unfold rateLimitStage. destruct (decide (path req = "/health")); [discriminate|].
  destruct (checkRateLimit options (getClientKey req) (t_check clk) m) as [m'' info].
  destruct (allowed info); cbn; [discriminate|].
  intros [= <- <- <-]. split_and!; [done | done |].
  intros v H. header_cases H.
Qed.

Lemma rateLimitStage_continue (req : Request) (clk : Clock) (m m' : gmap string RateRecord)
    (hs : Headers) :
  rateLimitStage options req clk m = (Continue hs tt, m') ->
  forall v, ("Access-Control-Allow-Origin", v) ∉ hs.
Proof.
  unfold rateLimitStage. destruct (decide (path req = "/health")).
  - intros [= <- <-] v H. by apply elem_of_nil in H.
  - destruct (checkRateLimit options (getClientKey req) (t_check clk) m) as [m'' info].
    destruct (allowed info); cbn; [|discriminate].
    intros [= <- <-] v H. header_cases H.
Qed.

Lemma rateLimitStage_state (req : Request) (clk : Clock) (m : gmap string RateRecord) :
  (rateLimitStage options req clk m).2
    = if decide (path req = "/health") then m
      else (checkRateLimit options (getClientKey req) (t_check clk) m).1.
Proof.
  unfold rateLimitStage. destruct (decide (path req = "/health")); [done|].
  destruct (checkRateLimit options (getClientKey req) (t_check clk) m) as [m'' info].
  by destruct (allowed info).
Qed.

(** X8.  A preflight ([OPTIONS]) request never reaches the token middleware
    or a route: it is answered 429 by the rate limiter, or 403 or 204 by the
    CORS middleware, and nothing is logged. *)
Theorem options_request_stops_at_cors (req : Request) (clk : Clock) (m : gmap string RateRecord) :
  method req = "OPTIONS" ->
  trace_of (handleRequest decode options req clk m).2 = []
  /\ (is_429 (snd (value_of (handleRequest decode options req clk m).2)) = true
      \/ snd (value_of (handleRequest decode options req clk m).2) = Sent 403 None
      \/ snd (value_of (handleRequest decode options req clk m).2) = Sent 204 None).
Proof.
  intros Hm. unfold handleRequest.
  destruct (rateLimitStage options req clk m) as [[hs reply|hs []] m'] eqn:Hs.
  - apply rateLimitStage_done in Hs as [H429 _]. cbn. split; [done | by left].
  - unfold corsStage. destruct (isOriginAllowed options (origin req)); cbn [negb];
      destruct (decide (method req = "OPTIONS")); try done; cbn; split; auto.
Qed.

(** X9.  A request whose origin is not allowed is turned away before the
    token middleware runs (nothing is logged, the reply is the CORS 403 or the
    rate limiter's 429), but only after the rate limiter has counted it: for
    every path other than [/health] the map afterwards is the one left by
    [checkRateLimit]. *)
Theorem disallowed_origin_counted_then_rejected (req : Request) (clk : Clock)
    (m : gmap string RateRecord) :
  isOriginAllowed options (origin req) = false ->
  trace_of (handleRequest decode options req clk m).2 = []
  /\ (is_429 (snd (value_of (handleRequest decode options req clk m).2)) = true
      \/ exists body, snd (value_of (handleRequest decode options req clk m).2) = Sent 403 body)
  /\ (handleRequest decode options req clk m).1
     = if decide (path req = "/health") then m
       else (checkRateLimit options (getClientKey req) (t_check clk) m).1.
Proof.
  intros Ho. rewrite handleRequest_state, rateLimitStage_state. split_and!; [| |done].
  - unfold handleRequest.
    destruct (rateLimitStage options req clk m) as [[hs reply|hs []] m'] eqn:Hs; [done|].
    unfold corsStage. rewrite Ho. cbn. by destruct (decide (method req = "OPTIONS")).
  - unfold handleRequest.
    destruct (rateLimitStage options req clk m) as [[hs reply|hs []] m'] eqn:Hs.
    + apply rateLimitStage_done in Hs as [H429 _]. by left.
    + right. unfold corsStage. rewrite Ho. cbn.
      destruct (decide (method req = "OPTIONS")); cbn; by eexists.
Qed.

Lemma corsStage_allow_origin (req : Request) (st : Stage unit) :
  corsStage options req = st ->
  forall x, ("Access-Control-Allow-Origin", x) ∈ match st with Done h _ | Continue h _ => h end ->
    isOriginAllowed options (origin req) = true
    /\ (truthy (origin req) = Some x \/ (truthy (origin req) = None /\ x = "*")).
Proof.
  intros <- x. unfold corsStage.
  destruct (isOriginAllowed options (origin req)); cbn [negb].
  - destruct (truthy (origin req)) as [o|];
      destruct (decide (method req = "OPTIONS")); cbn; intros H;
      apply elem_of_cons in H as [[= ->]|H]; try (split; [done | auto]);
      header_cases H.
  - destruct (decide (method req = "OPTIONS")); intros H; inversion H.
Qed.

(** X10.  The [Access-Control-Allow-Origin] header of a response is never an
    unvalidated value: whenever it is set, the request's origin passed
    [isOriginAllowed], and the value is that origin, or ["*"] when the request
    had no origin. *)
Theorem allow_origin_header_is_validated (req : Request) (clk : Clock)
    (m : gmap string RateRecord) (v : string) :
  has_header "Access-Control-Allow-Origin" v
    (fst (value_of (handleRequest decode options req clk m).2)) ->
  isOriginAllowed options (origin req) = true
  /\ (truthy (origin req) = Some v \/ (truthy (origin req) = None /\ v = "*")).
Proof.
  unfold has_header, handleRequest.
  destruct (rateLimitStage options req clk m) as [[hs reply|hs []] m'] eqn:Hs.
  - apply rateLimitStage_done in Hs as (_ & _ & Hno). cbn [value_of tret fst snd].
    intros [H|H]%elem_of_app; [unfold securityHeaders in H; header_cases H | by apply Hno in H].
  - pose proof (rateLimitStage_continue _ _ _ _ _ Hs) as Hno.
    assert (Hcors : forall hs' : Headers,
      (forall x, ("Access-Control-Allow-Origin", x) ∈ hs' ->
         isOriginAllowed options (origin req) = true
         /\ (truthy (origin req) = Some x \/ (truthy (origin req) = None /\ x = "*"))) ->
      ("Access-Control-Allow-Origin", v) ∈ securityHeaders ++ hs ++ hs' ->
      isOriginAllowed options (origin req) = true
      /\ (truthy (origin req) = Some v \/ (truthy (origin req) = None /\ v = "*"))).
    { intros hs' Hhs' [H|[H|H]%elem_of_app]%elem_of_app;
        [unfold securityHeaders in H; header_cases H | by apply Hno in H | by apply Hhs'] . }
    destruct (corsStage options req) as [hs' reply|hs' []] eqn:Hc.
    + cbn [value_of tret fst snd]. apply Hcors.
      exact (corsStage_allow_origin req _ Hc).
    + cbn [snd]. rewrite value_bind. cbn [value_of tret fst snd].
      apply Hcors. exact (corsStage_allow_origin req _ Hc).
Qed.


End Pipeline.


(** ** Accepted tokens *)
Section AcceptedTokens.
Import Jsonwebtoken AuthMiddleware.

Variable decode : string -> option DecodedToken.

Lemma startsWith_bearer_inv (s : string) :
  startsWith s "Bearer " = true -> s = "Bearer " +:+ slice_from 7 s.
Proof. intros [rest ->]%startsWith_iff. by rewrite slice_bearer. Qed.

Lemma on_verify_error_not_next (e : Thrown) (user : AuthenticatedUser) :
  value_of (on_verify_error e) <> Next user.
Proof.
  destruct (on_verify_error_status e) as (st & er & msg & -> & _). discriminate.
Qed.

Lemma or_else_nonempty (o : option string) (d : string) :
  d <> EmptyString -> or_else o d <> EmptyString.
Proof.
  intros Hd. unfold or_else, truthy. destruct o as [s|]; [|done].
  by destruct (decide (s = EmptyString)).
Qed.

Lemma truthy_Some_nonempty (o : option string) (s : string) :
  truthy o = Some s -> s <> EmptyString /\ o = Some s.
Proof.
  unfold truthy. destruct o as [x|]; [|done].
  destruct (decide (x = EmptyString)); [done|]. by intros [= <-].
Qed.

Lemma verify_decoded (token secret : string) (now : Z) (p : SupabaseJwtPayload) :
  verify decode token secret now = Decoded p ->
  exists t, decode token = Some t
    /\ alg t = "HS256"
    /\ signature_verifies t secret = true
    /\ (forall n, nbf (payload t) = Some n -> n <= now)
    /\ (forall e, Jsonwebtoken.exp (payload t) = Some e -> now < e)
    /\ p = payload t.
Proof.
  unfold verify. destruct (decode token) as [t|]; [|discriminate].
  destruct (bool_decide (alg t ∈ ["HS256"])) eqn:Halg; cbn [negb]; [|discriminate].
  apply bool_decide_eq_true, list_elem_of_singleton in Halg.
  pose proof Halg as Ha.
  destruct (signature_verifies t secret) eqn:Hsig; cbn [negb]; [|discriminate].
  assert (Hn : forall n, nbf (payload t) = Some n -> bool_decide (n > now) = false -> n <= now).
  { intros n _ H%bool_decide_eq_false. lia. }
  assert (He : forall e, Jsonwebtoken.exp (payload t) = Some e ->
                 bool_decide (now >= e) = false -> now < e).
  { intros e _ H%bool_decide_eq_false. lia. }
  destruct (nbf (payload t)) as [n|] eqn:Hnbf;
    [destruct (bool_decide (n > now)) eqn:Hnb; [discriminate|]|];
    (destruct (Jsonwebtoken.exp (payload t)) as [e|] eqn:Hexp;
     [destruct (bool_decide (now >= e)) eqn:Heb; [discriminate|]|]);
    intros [= <-]; exists t; split_and!; try done;
    intros x Hx; rewrite Hx in *; try discriminate;
    first [ apply Hn; [done | by simplify_eq] | apply He; [done | by simplify_eq] ].
Qed.

(** X13.  The middleware calls [next()] only for a header of the form
    [Bearer <token>] with a non-empty token that decodes, is signed with
    HS256, verifies under the configured secret, is not before its [nbf], has
    not reached its [exp], and has a non-empty subject, which becomes the user
    id. *)
Theorem accepted_token_is_verified (secret : string) (authorization : option string)
    (nowMs : Z) (user : AuthenticatedUser) :
  value_of (createAuthMiddleware decode secret authorization nowMs) = Next user ->
  exists token t,
    truthy authorization = Some ("Bearer " +:+ token)
    /\ token <> EmptyString
    /\ decode token = Some t
    /\ alg t = "HS256"
    /\ signature_verifies t secret = true
    /\ (forall n, nbf (payload t) = Some n -> n <= nowMs / 1000)
    /\ (forall e, Jsonwebtoken.exp (payload t) = Some e -> nowMs / 1000 < e)
    /\ truthy (sub (payload t)) = Some (userId user).
Proof.
  unfold createAuthMiddleware.
  destruct (truthy authorization) as [authHeader|]; [|discriminate].
  destruct (startsWith authHeader "Bearer ") eqn:Hstart; cbn [negb]; [|discriminate].
  apply startsWith_bearer_inv in Hstart.
  destruct (decide (slice_from 7 authHeader = EmptyString)) as [|Hne]; [discriminate|].
  destruct (verify decode (slice_from 7 authHeader) secret (nowMs / 1000)) as [p|e] eqn:Hv;
    [|intros H; by apply on_verify_error_not_next in H].
  apply verify_decoded in Hv as (t & Hdec & Halg & Hsig & Hnbf & Hexp & ->).
  unfold on_decoded. destruct (truthy (sub (payload t))) as [subject|] eqn:Hsub; [|discriminate].
  rewrite value_bind. intros [= <-].
  exists (slice_from 7 authHeader), t. rewrite <- Hstart.
  split_and!; done.
Qed.

(** X14.  The user attached to an accepted request always has a non-empty
    user id and a non-empty role, and its e-mail is either absent or
    non-empty; exactly one line is logged for it.  A request answered 401 logs
    nothing. *)
Theorem accepted_user_is_well_formed (secret : string) (authorization : option string)
    (nowMs : Z) :
  match value_of (createAuthMiddleware decode secret authorization nowMs) with
  | Next user =>
    userId user <> EmptyString /\ role user <> EmptyString /\ email user <> Some EmptyString
    /\ trace_of (createAuthMiddleware decode secret authorization nowMs)
       = ["[AUTH] Authenticated request from user: " +:+ or_else (email user) (userId user)]
  | Respond status _ _ =>
    status = 401 -> trace_of (createAuthMiddleware decode secret authorization nowMs) = []
  end.
Proof.
  unfold createAuthMiddleware.
  destruct (truthy authorization) as [authHeader|]; [|done].
  destruct (startsWith authHeader "Bearer "); cbn [negb]; [|done].
  destruct (decide (slice_from 7 authHeader = EmptyString)); [done|].
  destruct (verify decode (slice_from 7 authHeader) secret (nowMs / 1000)) as [p|e].
  - unfold on_decoded. destruct (truthy (sub p)) as [subject|] eqn:Hsub; [|done].
    rewrite value_bind, trace_bind. cbn.
    apply truthy_Some_nonempty in Hsub as [Hne _].
    split_and!; [done | by apply or_else_nonempty | | done].
    destruct (truthy (Jsonwebtoken.email p)) as [x|] eqn:He; [|done].
    apply truthy_Some_nonempty in He as [Hx _]. by intros [= ->].
  - unfold on_verify_error.
    destruct (instanceof (cls e) JsonWebTokenError); [done|].
    destruct (instanceof (cls e) TokenExpiredError); [done|]. cbn. discriminate.
Qed.

(** X15.  The middleware does not require an [exp] claim: a token that is
    signed with HS256 under the configured secret, has a non-empty subject and
    carries neither [exp] nor [nbf] is accepted at every time, and the
    attached user's [exp] is 0. *)
Theorem token_without_exp_never_expires (secret token subject : string) (t : DecodedToken)
    (nowMs : Z) :
  token <> EmptyString ->
  decode token = Some t ->
  alg t = "HS256" ->
  signature_verifies t secret = true ->
  nbf (payload t) = None ->
  Jsonwebtoken.exp (payload t) = None ->
  truthy (sub (payload t)) = Some subject ->
  value_of (createAuthMiddleware decode secret (Some ("Bearer " +:+ token)) nowMs)
    = Next {| userId := subject;
              email := truthy (Jsonwebtoken.email (payload t));
              role := or_else (Jsonwebtoken.role (payload t)) "authenticated";
              exp := 0 |}.
Proof.
  intros Hne Hdec Halg Hsig Hnbf Hexp Hsub. unfold createAuthMiddleware, verify.
  rewrite truthy_bearer, startsWith_bearer, slice_bearer. cbn [negb].
  destruct (decide (token = EmptyString)); [done|].
  rewrite Hdec, Halg, Hsig, Hnbf, Hexp. cbn [negb].
  rewrite (bool_decide_eq_true_2 ("HS256" ∈ ["HS256"])) by set_solver. cbn [negb].
  unfold on_decoded. rewrite Hsub, Hexp. rewrite value_bind. reflexivity.
Qed.
End AcceptedTokens.

(** ** The catalog and the handler, further *)
Section Catalog.
Import Types Index Capabilities.

Variable JSON_stringify : JsonValue -> string.
Variable client : Utils.SelfhostedSupabaseClient.
Variable workspace : string.
Variable availableTools : gmap string AppTool.
Variable enabledToolNames : option (gset string).
Variable mcpInputSchema : AppTool -> JsonValue.

#[local] Abbreviation registered' := (registeredTools availableTools enabledToolNames).
#[local] Abbreviation call' :=
  (callTool JSON_stringify client workspace availableTools enabledToolNames).
#[local] Abbreviation context_of u :=
  ({| selfhostedClient := client; workspacePath := workspace; user := u |}).

(** X16.  With a tools configuration the effective catalog is the
    intersection of the full catalog and the configured names: its names are
    exactly the catalogued names that are configured, and each is bound to the
    same tool as in the full catalog; without a configuration it is the full
    catalog. *)
Theorem registeredTools_is_intersection (names : gset string) :
  dom (registeredTools availableTools (Some names)) = dom availableTools ∩ names
  /\ registeredTools availableTools (Some names) ⊆ availableTools
  /\ registeredTools availableTools None = availableTools.
Proof.
  split_and!; [| apply map_filter_subseteq | reflexivity].
  apply set_eq. intros k.
  rewrite elem_of_intersection, !elem_of_dom. unfold is_Some, registeredTools.
  setoid_rewrite map_lookup_filter_Some. cbn. split.
  - intros (x & Hx & Hin). split; [by exists x | done].
  - intros [[x Hx] Hin]. by exists x.
Qed.

Lemma keyed_by_name_registered :
  keyed_by_name availableTools -> keyed_by_name registered'.
Proof.
  unfold keyed_by_name. intros Hk k tool Hr.
  apply (registered_is_available availableTools enabledToolNames) in Hr.
  by eapply map_Forall_lookup_1 in Hk.
Qed.

Lemma capabilitiesTools_keyed (tools : gmap string AppTool) :
  keyed_by_name tools ->
  capabilitiesTools mcpInputSchema tools = schema_of mcpInputSchema <$> tools.
Proof.
  unfold capabilitiesTools.
  apply (map_fold_weak_ind
           (fun r m => keyed_by_name m -> r = schema_of mcpInputSchema <$> m)).
  - intros _. by rewrite fmap_empty.
  - intros i x m r Hi IH Hk.
    pose proof (map_Forall_insert_1_1 _ _ _ _ Hk) as Hx. cbn in Hx.
    rewrite fmap_insert, Hx. f_equal. apply IH.
    by eapply map_Forall_insert_1_2.
Qed.

(** X17.  When every tool is filed under its own name, the capability
    listing has exactly one entry per tool of the effective catalog: as many
    entries as there are effective tools, each the descriptor of the effective
    tool of that name. *)
Theorem listTools_lists_effective_catalog :
  keyed_by_name availableTools ->
  length (listTools mcpInputSchema registered') = size registered'
  /\ forall s, s ∈ listTools mcpInputSchema registered'
       <-> exists tool, registered' !! schema_name s = Some tool
                        /\ s = schema_of mcpInputSchema tool.
Proof.
  intros Hk. apply keyed_by_name_registered in Hk.
  unfold listTools. rewrite (capabilitiesTools_keyed _ Hk). split.
  - by rewrite length_fmap, length_map_to_list, map_size_fmap.
  - intros s. rewrite list_elem_of_fmap. split.
    + intros ([k s'] & -> & Hin). cbn.
      apply elem_of_map_to_list in Hin. rewrite lookup_fmap in Hin.
      destruct (registered' !! k) as [tool|] eqn:Ht; [|discriminate].
      cbn in Hin. injection Hin as <-. exists tool. split; [|done].
      cbn. by rewrite (map_Forall_lookup_1 _ _ _ _ Hk Ht).
    + intros (tool & Ht & ->). exists (name tool, schema_of mcpInputSchema tool).
      split; [done|]. apply elem_of_map_to_list. rewrite lookup_fmap.
      cbn in Ht. by rewrite Ht.
Qed.

Lemma call_authorized (u : option UserContext) (tool : AppTool) (toolName : string)
    (arguments : option JsonValue) :
  registered' !! toolName = Some tool ->
  passes_authorization u tool = true ->
  call' u toolName arguments
    = run_tool JSON_stringify client workspace tool u toolName arguments.
Proof.
  intros Hreg Hauth. unfold callTool. rewrite Hreg.
  destruct u as [usr|]; [|done]. cbn in Hauth. by rewrite Hauth.
Qed.

(** X18.  Once a call has passed the lookup and the privilege check the
    handler never throws: it returns a result, and that result is flagged as
    an error exactly when the arguments fail the schema or the tool body
    throws. *)
Theorem callTool_always_answers_in_band (u : option UserContext) (tool : AppTool)
    (toolName : string) (arguments : option JsonValue) :
  registered' !! toolName = Some tool ->
  passes_authorization u tool = true ->
  exists text isError,
    value_of (call' u toolName arguments) = ToolResult text isError
    /\ (isError = false
        <-> exists parsedArgs result,
              inputSchema tool arguments = Parsed parsedArgs
              /\ execute tool parsedArgs (context_of u) = Returned result).
Proof.
  intros Hreg Hauth. rewrite (call_authorized u tool) by done. unfold run_tool.
  destruct (inputSchema tool arguments) as [parsedArgs|issues] eqn:Hp.
  - destruct (execute tool parsedArgs (context_of u)) as [result|e] eqn:He.
    + eexists _, false. rewrite !value_bind. split; [reflexivity|].
      split; [intros _; by exists parsedArgs, result | done].
    + eexists _, true. rewrite !value_bind. split; [reflexivity|].
      split; [done|]. intros (p & r & [= <-] & Hr). congruence.
  - eexists _, true. rewrite !value_bind. split; [reflexivity|].
    split; [done|]. intros (p & r & [=] & _).
Qed.

(** X19.  For every call, the tool body is invoked at most once, and only for
    a registered tool, after the privilege check has passed and the arguments
    have parsed; it receives the parsed arguments, not the raw ones, and a
    context that carries the caller's identity. *)
Theorem execute_only_after_all_checks (u : option UserContext) (toolName : string)
    (arguments : option JsonValue) :
  (length (List.filter is_execute (trace_of (call' u toolName arguments))) <= 1)%nat
  /\ forall n parsedArgs context,
       Execute n parsedArgs context ∈ trace_of (call' u toolName arguments) ->
       n = toolName /\ context = context_of u
       /\ exists tool, registered' !! toolName = Some tool
                       /\ passes_authorization u tool = true
                       /\ inputSchema tool arguments = Parsed parsedArgs.
Proof.
  assert (Hrun : forall tool,
    registered' !! toolName = Some tool -> passes_authorization u tool = true ->
    (length (List.filter is_execute
       (trace_of (run_tool JSON_stringify client workspace tool u toolName arguments))) <= 1)%nat
    /\ forall n parsedArgs context,
         Execute n parsedArgs context
           ∈ trace_of (run_tool JSON_stringify client workspace tool u toolName arguments) ->
         n = toolName /\ context = context_of u
         /\ exists tool, registered' !! toolName = Some tool
                         /\ passes_authorization u tool = true
                         /\ inputSchema tool arguments = Parsed parsedArgs).
  { intros tool Hreg Hauth. unfold run_tool.
    destruct (inputSchema tool arguments) as [parsed|issues] eqn:Hp.
    - destruct (execute tool parsed (context_of u)) as [result|e]; cbn.
      + split; [lia|]. intros n p c H.
        apply elem_of_cons in H as [[=]|H].
        apply elem_of_cons in H as [[= -> -> ->]|H]; [|by apply elem_of_nil in H].
        split_and!; try done. by exists tool.
      + split; [lia|]. intros n p c H.
        apply elem_of_cons in H as [[=]|H].
        apply elem_of_cons in H as [[= -> -> ->]|H].
        * split_and!; try done. by exists tool.
        * apply elem_of_cons in H as [[=]|H]. by apply elem_of_nil in H.
    - cbn. split; [lia|]. intros n p c H.
      apply elem_of_cons in H as [[=]|H].
      apply elem_of_cons in H as [[=]|H]. by apply elem_of_nil in H. }
  unfold callTool. destruct (registered' !! toolName) as [tool|] eqn:Hreg.
  - destruct u as [usr|].
    + destruct (canAccessTool (role usr) (default regular (privilegeLevel tool))) eqn:Hc;
        cbn [negb].
      * by apply Hrun.
      * cbn. split; [lia|]. intros n p c H.
        apply elem_of_cons in H as [[=]|H]. by apply elem_of_nil in H.
    + by apply Hrun.
  - case_bool_decide; cbn; (split; [lia|]); intros n p c Hin; by apply elem_of_nil in Hin.
Qed.

(** X20.  A caller whose role is [anon] is denied every registered tool,
    whatever its privilege level and also when the descriptor has none: the
    handler logs the audit line and throws the access-denied error without
    parsing the arguments. *)
Theorem anon_is_denied_every_tool (u : UserContext) (tool : AppTool) (toolName : string)
    (arguments : option JsonValue) :
  role u = "anon" ->
  registered' !! toolName = Some tool ->
  call' (Some u) toolName arguments
    = ([ConsoleError (audit_line u toolName (default regular (privilegeLevel tool)))],
       McpError InvalidRequest
         (denied_message u toolName (default regular (privilegeLevel tool)))).
Proof.
  intros Hrole Hreg. unfold callTool. rewrite Hreg, Hrole.
  rewrite canAccessTool_eq. cbn. reflexivity.
Qed.

(** X21.  A caller whose role is [service_role] is never stopped by the
    privilege check: for every registered tool the call proceeds exactly as it
    does in stdio mode, except that the tool's context carries the caller's
    identity. *)
Theorem service_role_is_never_denied (u : UserContext) (tool : AppTool) (toolName : string)
    (arguments : option JsonValue) :
  role u = "service_role" ->
  registered' !! toolName = Some tool ->
  call' (Some u) toolName arguments
    = run_tool JSON_stringify client workspace tool (Some u) toolName arguments
  /\ call' None toolName arguments
     = run_tool JSON_stringify client workspace tool None toolName arguments.
Proof.
  intros Hrole Hreg. split.
  - apply call_authorized; [done|]. cbn. rewrite Hrole, canAccessTool_eq. reflexivity.
  - by apply call_authorized.
Qed.

(** X22.  A [ZodError] thrown by the tool body itself (for instance by the
    validation of its output) is reported with the words "Input validation
    failed": the result is the same text, issue for issue, that a failure of
    the input schema with those issues produces. *)
Theorem body_zod_error_reported_as_input_failure (u : option UserContext) (tool : AppTool)
    (toolName : string) (arguments : option JsonValue) (parsedArgs : JsonValue)
    (issues : list ZodIssue) :
  registered' !! toolName = Some tool ->
  passes_authorization u tool = true ->
  inputSchema tool arguments = Parsed parsedArgs ->
  execute tool parsedArgs (context_of u) = Threw (ThrownZodError issues) ->
  value_of (call' u toolName arguments)
    = ToolResult ("Error executing tool " +:+ toolName +:+ ": Input validation failed: "
                  +:+ join ", " (show_issue <$> issues)) true.
Proof.
  intros Hreg Hauth Hp He. rewrite (call_authorized u tool) by done.
  unfold run_tool. rewrite Hp, He, !value_bind. reflexivity.
Qed.
End Catalog.

(** ** Characters of strings *)

Lemma string_forallb_impl (P Q : ascii -> bool) (s : string) :
  (forall c, P c = true -> Q c = true) ->
  string_forallb P s = true -> string_forallb Q s = true.
Proof.
  intros HPQ. induction s as [|c s IH]; [done|]. cbn.
  rewrite !andb_true_iff. intros [Hc Hs]. auto.
Qed.

Lemma string_forallb_rev_app (P : ascii -> bool) (a b : string) :
  string_forallb P (String.rev_app a b) = string_forallb P a && string_forallb P b.
Proof.
  revert b. induction a as [|c a IH]; intros b; [reflexivity|].
  cbn. rewrite IH. cbn.
  destruct (P c), (string_forallb P a), (string_forallb P b); reflexivity.
Qed.

Lemma string_forallb_trim_start (P : ascii -> bool) (s : string) :
  string_forallb P s = true -> string_forallb P (HttpServer.trim_start s) = true.
Proof.
  induction s as [|c s IH]; [done|]. cbn [HttpServer.trim_start].
  destruct (Ascii.is_space c); [|done].
  cbn. rewrite andb_true_iff. intros [_ Hs]. auto.
Qed.

Lemma string_forallb_trim (P : ascii -> bool) (s : string) :
  string_forallb P s = true -> string_forallb P (HttpServer.trim s) = true.
Proof.
  intros Hs. unfold HttpServer.trim, String.rev.
  rewrite string_forallb_rev_app, andb_true_r.
  apply string_forallb_trim_start.
  rewrite string_forallb_rev_app, andb_true_r.
  by apply string_forallb_trim_start.
Qed.

Lemma before_comma_has_no_comma (s : string) :
  string_forallb (fun c => negb (bool_decide (c = ","%char))) (HttpServer.before_comma s) = true.
Proof.
  induction s as [|c s IH]; [done|]. cbn [HttpServer.before_comma].
  destruct (decide (c = ","%char)) as [->|Hne]; [done|].
  cbn. rewrite IH, andb_true_r. by rewrite bool_decide_eq_false_2.
Qed.


(** ** The client key *)

(** X23.  When [X-Forwarded-For] is a single string the rate-limit key is
    taken from it alone (the connection's address is not consulted) and never
    contains a comma; otherwise the key comes from the connection and is never
    empty. *)
Theorem getClientKey_sources (req : HttpServer.Request) :
  match HttpServer.x_forwarded_for req with
  | Some (HttpServer.HString forwarded) =>
    HttpServer.getClientKey req = HttpServer.trim (HttpServer.before_comma forwarded)
    /\ string_forallb (fun c => negb (bool_decide (c = ","%char)))
         (HttpServer.getClientKey req) = true
  | _ =>
    HttpServer.getClientKey req <> EmptyString
    /\ (Some (HttpServer.getClientKey req) = HttpServer.ip req
        \/ Some (HttpServer.getClientKey req) = HttpServer.remoteAddress req
        \/ HttpServer.getClientKey req = "unknown")
  end.
Proof.
  assert (Hfallback : forall r : HttpServer.Request,
    match truthy (HttpServer.ip r) with
    | Some a => a
    | None => or_else (HttpServer.remoteAddress r) "unknown"
    end <> EmptyString
    /\ (Some match truthy (HttpServer.ip r) with
             | Some a => a
             | None => or_else (HttpServer.remoteAddress r) "unknown"
             end = HttpServer.ip r
        \/ Some match truthy (HttpServer.ip r) with
                | Some a => a
                | None => or_else (HttpServer.remoteAddress r) "unknown"
                end = HttpServer.remoteAddress r
        \/ match truthy (HttpServer.ip r) with
           | Some a => a
           | None => or_else (HttpServer.remoteAddress r) "unknown"
           end = "unknown")).
  { intros r. destruct (truthy (HttpServer.ip r)) as [a|] eqn:Hip.
    - apply truthy_Some_nonempty in Hip as [Hne ->]. auto.
    - unfold or_else. destruct (truthy (HttpServer.remoteAddress r)) as [b|] eqn:Hra; cbn.
      + apply truthy_Some_nonempty in Hra as [Hne ->]. auto.
      + split; [done | auto]. }
  unfold HttpServer.getClientKey.
  destruct (HttpServer.x_forwarded_for req) as [[forwarded|ss]|]; [|apply Hfallback..].
  split; [done|]. apply string_forallb_trim, before_comma_has_no_comma.
Qed.

(** ** Results of SQL execution (src/tools/utils.ts) *)
Section SqlResults.
Import Utils Index SqlResponse.

(** X24.  [handleSqlResponse] returns a value exactly when the result is a
    success response whose rows pass the schema, and then it returns the
    schema's output; an error response is always thrown, with a message that
    holds the backend's error code and message unchanged. *)
Theorem handleSqlResponse_returns_iff (result : SqlExecutionResult)
    (schema : JsonValue -> ParseResult) (value : JsonValue) :
  (handleSqlResponse result schema = Returned value
   <-> exists rows, result = SqlSuccessResponse rows /\ schema (JArr rows) = Parsed value)
  /\ (if isSqlErrorResponse result then
        exists e text, result = SqlErrorResponse e
          /\ handleSqlResponse result schema = Threw (ThrownError text)
          /\ occurs_in (code e) text /\ occurs_in (Utils.message e) text
      else exists rows, result = SqlSuccessResponse rows).
Proof.
  split.
  - unfold handleSqlResponse. destruct result as [rows|e].
    + destruct (schema (JArr rows)) as [v|issues] eqn:Hs.
      * split; [intros [= <-]; by exists rows | by intros (r & [= <-] & [= <-]%(eq_trans (eq_sym Hs))) ].
      * split; [done|]. intros (r & [= <-] & Hr). congruence.
    + split; [done | by intros (r & [=] & _)].
  - destruct result as [rows|e]; cbn; [by exists rows|].
    exists e, ("SQL Error (" +:+ code e +:+ "): " +:+ Utils.message e).
    split_and!; [done | done | |].
    + apply occurs_in_app_r, occurs_in_app_l, occurs_in_refl.
    + do 3 apply occurs_in_app_r. apply occurs_in_refl.
Qed.

(** X25.  With neither a direct connection nor a service-role key, running a
    statement through the fallback chain and handing the result to
    [handleSqlResponse] always throws the configuration error, for every
    statement, hint and schema: the error names the code [MCP_CONFIG_ERROR]. *)
Theorem unconfigured_chain_throws_config_error (client : SelfhostedSupabaseClient)
    (sql : string) (readOnly : option bool) (schema : JsonValue -> ParseResult) :
  isPgAvailable client = false ->
  isServiceRoleAvailable client = false ->
  handle_awaited (value_of (executeSqlWithFallback client sql readOnly)) schema
    = Threw (ThrownError ("SQL Error (MCP_CONFIG_ERROR): " +:+ CONFIG_ERROR_MESSAGE)).
Proof. intros Hpg Hsr. by rewrite fallback_unavailable. Qed.
End SqlResults.

(** ** The body of [execute_sql] (src/tools/execute_sql.ts) *)
Section ExecuteSqlBody.
Import Utils Index SqlResponse ExecuteSql.


End ExecuteSqlBody.

(** ** Identifier validation (src/tools/get_index_stats.ts) *)
Section IndexStats.
Import Utils Index SqlResponse GetIndexStats.

Variable GetIndexStatsOutputSchema : JsonValue -> ParseResult.

Lemma identifier_part_not_quote (c : ascii) :
  identifier_part c = true -> negb (bool_decide (c = "'"%char)) = true.
Proof. by destruct c as [[] [] [] [] [] [] [] []]. Qed.

Lemma identifier_start_part (c : ascii) : identifier_start c = true -> identifier_part c = true.
Proof.
  unfold identifier_start, identifier_part. rewrite !orb_true_iff. tauto.
Qed.

Lemma identifier_has_no_quote (s : string) :
  identifierPattern_test s = true ->
  s <> EmptyString
  /\ string_forallb (fun c => negb (bool_decide (c = "'"%char))) s = true.
Proof.
  destruct s as [|c s]; [done|]. cbn. rewrite andb_true_iff. intros [Hc Hs].
  split; [done|]. rewrite andb_true_iff. split.
  - by apply identifier_part_not_quote, identifier_start_part.
  - by eapply string_forallb_impl; [apply identifier_part_not_quote|].
Qed.

(** X28.  [get_index_stats] never sends a statement built from an unchecked
    identifier: when the schema or the index name fails [identifierPattern] it
    throws without calling a backend; and whenever a backend is called, the
    statement is the template with the two names in place, both names are
    non-empty and free of single quotes, and the hint is read-only. *)
Theorem get_index_stats_sends_only_checked_identifiers (input : GetIndexStatsInput)
    (context : ToolContext) :
  (identifierPattern_test (schema input) && identifierPattern_test (index_name input) = false ->
   trace_of (execute GetIndexStatsOutputSchema input context) = []
   /\ exists text, value_of (execute GetIndexStatsOutputSchema input context)
                   = Threw (ThrownError text))
  /\ forall call,
       Backend call ∈ trace_of (execute GetIndexStatsOutputSchema input context) ->
       (call = ExecuteSqlWithPg (index_stats_sql (schema input) (index_name input))
        \/ call = ExecuteSqlViaServiceRoleRpc
                    (index_stats_sql (schema input) (index_name input)) true)
       /\ schema input <> EmptyString /\ index_name input <> EmptyString
       /\ string_forallb (fun c => negb (bool_decide (c = "'"%char))) (schema input) = true
       /\ string_forallb (fun c => negb (bool_decide (c = "'"%char))) (index_name input) = true.
Proof.
  unfold execute.
  destruct (identifierPattern_test (schema input)) eqn:Hs; cbn [negb andb].
  2:{ split; [intros _; split; [done | by eexists] |]. intros call H. by apply elem_of_nil in H. }
  destruct (identifierPattern_test (index_name input)) eqn:Hi; cbn [negb].
  2:{ split; [intros _; split; [done | by eexists] |]. intros call H. by apply elem_of_nil in H. }
  split; [done|].
  apply identifier_has_no_quote in Hs as [Hs1 Hs2].
  apply identifier_has_no_quote in Hi as [Hi1 Hi2].
  intros call Hin. rewrite trace_bind in Hin. cbn in Hin.
  rewrite app_nil_r in Hin.
  destruct (isPgAvailable (selfhostedClient context)) eqn:Hpg.
  - rewrite fallback_pg in Hin by done. cbn in Hin.
    apply elem_of_cons in Hin as [[=]|Hin].
    apply elem_of_cons in Hin as [[= ->]|Hin]; [|by apply elem_of_nil in Hin].
    split_and!; auto.
  - destruct (isServiceRoleAvailable (selfhostedClient context)) eqn:Hsr.
    + rewrite fallback_rpc in Hin by done. cbn in Hin.
      apply elem_of_cons in Hin as [[=]|Hin].
      apply elem_of_cons in Hin as [[= ->]|Hin]; [|by apply elem_of_nil in Hin].
      split_and!; auto.
    + rewrite fallback_unavailable in Hin by done. by apply elem_of_nil in Hin.
Qed.
End IndexStats.

(** ** The further properties on concrete inputs *)

Lemma checkRateLimit_isolated_witness :
  (HttpServer.checkRateLimit (Fixtures.http_options None None) "10.0.0.1" 1000
     RateLimitInvariant.two_clients).1 !! "10.0.0.2"
  = RateLimitInvariant.two_clients !! "10.0.0.2".
Proof.
  apply (proj1 (checkRateLimit_isolated (Fixtures.http_options None None)
                  "10.0.0.2" "10.0.0.1" 1000 RateLimitInvariant.two_clients
                  RateLimitInvariant.two_clients)).
  discriminate.
Defined.

Lemma run_keeps_counts_bounded_witness :
  RateLimitInvariant.counts_bounded (Fixtures.http_options None (Some 2))
    (HttpServer.run Fixtures.decode_fixture (Fixtures.http_options None (Some 2)) ∅
       [ HttpServer.Arrives (Fixtures.request "POST" "/mcp" None None) (Fixtures.at_ms 0);
         HttpServer.Arrives (Fixtures.request "POST" "/mcp" None None) (Fixtures.at_ms 10);
         HttpServer.Arrives (Fixtures.request "POST" "/mcp" None None) (Fixtures.at_ms 20);
         HttpServer.Sweep 70000 ]).1.
Proof.
  apply (run_keeps_counts_bounded Fixtures.decode_fixture (Fixtures.http_options None (Some 2)) ∅).
  apply map_Forall_empty.
Defined.

Lemma checkRateLimit_status_consistent_witness :
  0 <= HttpServer.remaining
         (HttpServer.checkRateLimit (Fixtures.http_options None None) "10.0.0.2" 1000
            RateLimitInvariant.two_clients).2.
Proof.
  refine (proj1 (checkRateLimit_status_consistent (Fixtures.http_options None None)
                   "10.0.0.2" 1000 RateLimitInvariant.two_clients _)).
  cbn. lia.
Defined.

Lemma exhausted_client_recovers_at_reset_witness :
  (HttpServer.run Fixtures.decode_fixture (Fixtures.http_options None None) Fixtures.exhausted
     [ HttpServer.Arrives (Fixtures.request "POST" "/mcp" None None) (Fixtures.at_ms 1000);
       HttpServer.Sweep 2000 ]).1 !! "10.0.0.1"
  = Some {| HttpServer.count := 100; HttpServer.resetTime := 60000 |}.
Proof.
  refine (proj1 (exhausted_client_recovers_at_reset Fixtures.decode_fixture
           (Fixtures.http_options None None) "10.0.0.1"
           {| HttpServer.count := 100; HttpServer.resetTime := 60000 |} 0
           [ HttpServer.Arrives (Fixtures.request "POST" "/mcp" None None) (Fixtures.at_ms 1000);
             HttpServer.Sweep 2000 ]
           Fixtures.exhausted _ _ _)).
  - cbn. lia.
  - reflexivity.
  - repeat constructor; cbn; lia.
Defined.

Lemma sweep_does_not_change_decisions_witness :
  (HttpServer.checkRateLimit (Fixtures.http_options None None) "10.0.0.2" 30000
     (value_of (HttpServer.cleanupExpiredRateLimitEntries 25000 RateLimitInvariant.two_clients))).2
  = (HttpServer.checkRateLimit (Fixtures.http_options None None) "10.0.0.2" 30000
       RateLimitInvariant.two_clients).2.
Proof.
  refine (proj1 (sweep_does_not_change_decisions (Fixtures.http_options None None) "10.0.0.2"
                   25000 30000 RateLimitInvariant.two_clients _)).
  lia.
Defined.

Lemma options_request_stops_at_cors_witness :
  trace_of (HttpServer.handleRequest Fixtures.decode_fixture (Fixtures.http_options None None)
              (Fixtures.request "OPTIONS" "/mcp" (Some "http://localhost:3000") None)
              (Fixtures.at_ms 0) ∅).2 = [].
Proof.
  refine (proj1 (options_request_stops_at_cors Fixtures.decode_fixture
                   (Fixtures.http_options None None)
                   (Fixtures.request "OPTIONS" "/mcp" (Some "http://localhost:3000") None)
                   (Fixtures.at_ms 0) ∅ _)).
  reflexivity.
Defined.

Lemma disallowed_origin_counted_then_rejected_witness :
  (HttpServer.handleRequest Fixtures.decode_fixture (Fixtures.http_options None None)
     (Fixtures.request "POST" "/mcp" (Some "http://evil.example") (Some "Bearer valid-token"))
     (Fixtures.at_ms 0) ∅).1
  = if decide ("/mcp" = "/health") then ∅
    else (HttpServer.checkRateLimit (Fixtures.http_options None None) "10.0.0.1" 0 ∅).1.
Proof.
  refine (proj2 (proj2 (disallowed_origin_counted_then_rejected Fixtures.decode_fixture
           (Fixtures.http_options None None)
           (Fixtures.request "POST" "/mcp" (Some "http://evil.example") (Some "Bearer valid-token"))
           (Fixtures.at_ms 0) ∅ _))).
  vm_compute. reflexivity.
Defined.

Lemma allow_origin_header_is_validated_witness :
  HttpServer.isOriginAllowed (Fixtures.http_options None None) (Some "http://localhost:3000") = true.
Proof.
  refine (proj1 (allow_origin_header_is_validated Fixtures.decode_fixture
           (Fixtures.http_options None None)
           (Fixtures.request "GET" "/health" (Some "http://localhost:3000") None)
           (Fixtures.at_ms 0) ∅ "http://localhost:3000" _)).
  unfold RateLimitInvariant.has_header. vm_compute.
  repeat first [apply list_elem_of_here | apply list_elem_of_further].
Defined.


Lemma accepted_token_is_verified_witness :
  exists token t,
    truthy (Some "Bearer valid-token") = Some ("Bearer " +:+ token)
    /\ token <> EmptyString
    /\ Fixtures.decode_fixture token = Some t
    /\ Jsonwebtoken.alg t = "HS256"
    /\ Jsonwebtoken.signature_verifies t Fixtures.test_secret = true
    /\ (forall n, Jsonwebtoken.nbf (Jsonwebtoken.payload t) = Some n -> n <= 2000000 / 1000)
    /\ (forall e, Jsonwebtoken.exp (Jsonwebtoken.payload t) = Some e -> 2000000 / 1000 < e)
    /\ truthy (Jsonwebtoken.sub (Jsonwebtoken.payload t)) = Some "user-123".
Proof.
  refine (accepted_token_is_verified Fixtures.decode_fixture Fixtures.test_secret
            (Some "Bearer valid-token") 2000000
            {| AuthMiddleware.userId := "user-123"; AuthMiddleware.email := None;
               AuthMiddleware.role := "authenticated"; AuthMiddleware.exp := 10000 |} _).
  vm_compute. reflexivity.
Defined.

Lemma token_without_exp_never_expires_witness :
  value_of (AuthMiddleware.createAuthMiddleware MoreFixtures.decode_no_exp Fixtures.test_secret
              (Some ("Bearer " +:+ "no-exp-token")) 4102444800000)
  = AuthMiddleware.Next {| AuthMiddleware.userId := "user-789"; AuthMiddleware.email := None;
                           AuthMiddleware.role := "authenticated"; AuthMiddleware.exp := 0 |}.
Proof.
  apply (token_without_exp_never_expires MoreFixtures.decode_no_exp Fixtures.test_secret
           "no-exp-token" "user-789"
           {| Jsonwebtoken.alg := "HS256";
              Jsonwebtoken.payload := Fixtures.claims "user-789" None;
              Jsonwebtoken.signature_verifies := fun s => bool_decide (s = Fixtures.test_secret) |}
           4102444800000); try reflexivity.
  discriminate.
Defined.

Lemma two_tools_keyed_by_name : Capabilities.keyed_by_name Fixtures.two_tools.
Proof.
  apply map_Forall_insert_2; [reflexivity|].
  apply map_Forall_insert_2; [reflexivity|].
  apply map_Forall_empty.
Qed.

Lemma listTools_lists_effective_catalog_witness :
  length (Capabilities.listTools MoreFixtures.no_schema
            (Index.registeredTools Fixtures.two_tools Fixtures.only_vector_indexes))
  = size (Index.registeredTools Fixtures.two_tools Fixtures.only_vector_indexes).
Proof.
  refine (proj1 (listTools_lists_effective_catalog Fixtures.two_tools
                   Fixtures.only_vector_indexes MoreFixtures.no_schema _)).
  exact two_tools_keyed_by_name.
Defined.

(** With only [list_vector_indexes] enabled the listing has one entry. *)
Example listing_with_one_tool_enabled :
  Capabilities.schema_name
    <$> Capabilities.listTools MoreFixtures.no_schema
          (Index.registeredTools Fixtures.two_tools Fixtures.only_vector_indexes)
  = ["list_vector_indexes"].
Proof. vm_compute. reflexivity. Qed.

Lemma callTool_always_answers_in_band_witness :
  exists text isError,
    value_of (Index.callTool Fixtures.stringify_stub Fixtures.failing_pg_client "/workspace"
                Fixtures.two_tools None None "execute_sql"
                (Some (JObj [("sql", JStr "SELECT * FROM t")])))
      = Index.ToolResult text isError
    /\ (isError = false
        <-> exists parsedArgs result,
              Index.inputSchema Fixtures.executeSqlTool
                (Some (JObj [("sql", JStr "SELECT * FROM t")])) = Index.Parsed parsedArgs
              /\ Index.execute Fixtures.executeSqlTool parsedArgs
                   {| Index.selfhostedClient := Fixtures.failing_pg_client;
                      Index.workspacePath := "/workspace"; Index.user := None |}
                 = Index.Returned result).
Proof.
  refine (callTool_always_answers_in_band Fixtures.stringify_stub Fixtures.failing_pg_client
            "/workspace" Fixtures.two_tools None None Fixtures.executeSqlTool "execute_sql"
            (Some (JObj [("sql", JStr "SELECT * FROM t")])) _ _); reflexivity.
Defined.

Lemma execute_only_after_all_checks_witness :
  (length (List.filter Index.is_execute
     (trace_of (Index.callTool Fixtures.stringify_stub Fixtures.failing_pg_client "/workspace"
                  Fixtures.two_tools None (Some MoreFixtures.service) "execute_sql"
                  (Some (JObj [("sql", JStr "SELECT 1")]))))) <= 1)%nat.
Proof.
  exact (proj1 (execute_only_after_all_checks Fixtures.stringify_stub Fixtures.failing_pg_client
                  "/workspace" Fixtures.two_tools None (Some MoreFixtures.service) "execute_sql"
                  (Some (JObj [("sql", JStr "SELECT 1")])))).
Defined.

Lemma anon_is_denied_every_tool_witness :
  Index.callTool Fixtures.stringify_stub Fixtures.failing_pg_client "/workspace"
    Fixtures.two_tools None (Some MoreFixtures.anonymous) "list_vector_indexes" (Some (JObj []))
  = ([Index.ConsoleError
        "[SECURITY] Access denied: User anon-1 (role: anon) attempted to access list_vector_indexes (requires: regular)"],
     Index.McpError Index.InvalidRequest
       "Access denied: Tool 'list_vector_indexes' requires 'regular' privilege. Your role 'anon' does not have sufficient permissions.").
Proof.
  refine (anon_is_denied_every_tool Fixtures.stringify_stub Fixtures.failing_pg_client
            "/workspace" Fixtures.two_tools None MoreFixtures.anonymous
            Fixtures.listVectorIndexesTool "list_vector_indexes" (Some (JObj [])) _ _);
    reflexivity.
Defined.

Lemma service_role_is_never_denied_witness :
  Index.callTool Fixtures.stringify_stub Fixtures.failing_pg_client "/workspace"
    Fixtures.two_tools None (Some MoreFixtures.service) "execute_sql"
    (Some (JObj [("sql", JStr "SELECT 1")]))
  = Index.run_tool Fixtures.stringify_stub Fixtures.failing_pg_client "/workspace"
      Fixtures.executeSqlTool (Some MoreFixtures.service) "execute_sql"
      (Some (JObj [("sql", JStr "SELECT 1")])).
Proof.
  refine (proj1 (service_role_is_never_denied Fixtures.stringify_stub Fixtures.failing_pg_client
                   "/workspace" Fixtures.two_tools None MoreFixtures.service
                   Fixtures.executeSqlTool "execute_sql"
                   (Some (JObj [("sql", JStr "SELECT 1")])) _ _)); reflexivity.
Defined.

Lemma body_zod_error_reported_as_input_failure_witness :
  value_of (Index.callTool Fixtures.stringify_stub MoreFixtures.one_row_client "/workspace"
              MoreFixtures.three_tools None (Some Fixtures.alice) "get_index_stats"
              MoreFixtures.index_arguments)
  = Index.ToolResult
      "Error executing tool get_index_stats: Input validation failed: index_size: Required" true.
Proof.
  refine (body_zod_error_reported_as_input_failure Fixtures.stringify_stub
            MoreFixtures.one_row_client "/workspace" MoreFixtures.three_tools None
            (Some Fixtures.alice) MoreFixtures.getIndexStatsTool "get_index_stats"
            MoreFixtures.index_arguments
            (JObj [("schema", JStr "public"); ("index_name", JStr "users_pkey")])
            [{| Index.path := [Index.KeySegment "index_size"]; Index.message := "Required" |}]
            _ _ _ _); reflexivity.
Defined.

Lemma unconfigured_chain_throws_config_error_witness :
  SqlResponse.handle_awaited
    (value_of (Utils.executeSqlWithFallback Fixtures.anon_only_client "SELECT 1" (Some true)))
    ExecuteSql.ExecuteSqlOutputSchema
  = Index.Threw (Index.ThrownError
      ("SQL Error (MCP_CONFIG_ERROR): " +:+ Utils.CONFIG_ERROR_MESSAGE)).
Proof.
  refine (unconfigured_chain_throws_config_error Fixtures.anon_only_client "SELECT 1"
            (Some true) ExecuteSql.ExecuteSqlOutputSchema _ _); reflexivity.
Defined.


Lemma get_index_stats_sends_only_checked_identifiers_witness :
  trace_of (GetIndexStats.execute MoreFixtures.missing_index_size
              {| GetIndexStats.schema := "public'; DROP TABLE users; --";
                 GetIndexStats.index_name := "users_pkey" |}
              {| Index.selfhostedClient := MoreFixtures.one_row_client;
                 Index.workspacePath := "/workspace"; Index.user := None |}) = []
  /\ exists text,
       value_of (GetIndexStats.execute MoreFixtures.missing_index_size
                   {| GetIndexStats.schema := "public'; DROP TABLE users; --";
                      GetIndexStats.index_name := "users_pkey" |}
                   {| Index.selfhostedClient := MoreFixtures.one_row_client;
                      Index.workspacePath := "/workspace"; Index.user := None |})
       = Index.Threw (Index.ThrownError text).
Proof.
  refine (proj1 (get_index_stats_sends_only_checked_identifiers MoreFixtures.missing_index_size
                   {| GetIndexStats.schema := "public'; DROP TABLE users; --";
                      GetIndexStats.index_name := "users_pkey" |}
                   {| Index.selfhostedClient := MoreFixtures.one_row_client;
                      Index.workspacePath := "/workspace"; Index.user := None |}) _).
  reflexivity.
Defined.
